(** * csi-proxy: lifecycle controller, correlation engine, server orchestrator

    A shallow embedding of the Go sources
      - pkg/os/system/api.go      (module [System])
      - pkg/cim (iscsi queries)   (module [Cim])
      - pkg/smb/hostapi           (module [Smb])
      - pkg/server/server.go      (module [Server])
    and the properties of the specification stated over it.

    Conventions.  A Go [error] value is an [option error] ([None] is [nil]);
    a call returning [(v, err)] whose value is only used when [err == nil] is
    a [result] (a sum).  Calls into the operating system are parameters of a
    [Section]; effects that a property observes are recorded in an event
    log threaded through the function. *)

From stdpp Require Import base option list gmap strings pretty.
From Stdlib Require Import Lia.

Local Open Scope string_scope.
Local Open Scope list_scope.

(** ** Go errors *)

(** An error made by [fmt.Errorf] is kept as its format string, the
    arguments are not rendered: [ErrNew] when no argument is wrapped,
    [ErrWrap] with the wrapped error when the format has the wrapping verb.
    [Timedout] and [NotFound] are the sentinels of
    [github.com/microsoft/wmi/pkg/errors]. *)
Inductive error : Type :=
| ErrNew (msg : string)
| ErrWrap (msg : string) (inner : error)
| Timedout
| NotFound.

#[global] Instance error_eq_dec : EqDecision error.
Proof. solve_decision. Defined.

Definition result (A : Type) : Type := (A + error)%type.

(** * pkg/os/system/api.go *)
Module System.

Definition serviceStateRunning : string := "Running".
Definition serviceStateStopped : string := "Stopped".

(** The [ServiceInterface] methods used by the traversal, and
    [ServiceFactory.GetService].  A service object is a handle of type [H];
    the host answers the property reads.  The host is not changed by the
    reads, so one traversal sees one snapshot. *)
Record ServiceHost (H : Type) : Type := {
  GetService : string -> result H;
  GetPropertyName : H -> result string;
  GetPropertyState : H -> result string;
  GetDependents : H -> result (list H);
}.
Arguments GetService {H}.
Arguments GetPropertyName {H}.
Arguments GetPropertyState {H}.
Arguments GetDependents {H}.

Section Dependents.
Context {H : Type} (host : ServiceHost H).

(** The local variables of [GetDependentsForService] that live across
    loop iterations. *)
Record loop_state : Type := {
  serviceNames : list string;
  servicesToCheck : list H;
  servicesByName : gmap string string;
  i : nat;
}.

Inductive iteration : Type :=
| Continue (st : loop_state)
| Return (names : list string) (err : option error).

(** One evaluation of the loop condition [i < len(servicesToCheck)]
    followed, when it holds, by the loop body (api.go lines 342-370). *)
Definition loop_body (st : loop_state) : iteration :=
  match servicesToCheck st !! i st with
  | None => Return (serviceNames st) None
  | Some service =>
    let i' := i st + 1 in
    match GetPropertyName host service with
    | inr err => Return (serviceNames st) (Some err)
    | inl serviceName =>
      match GetPropertyState host service with
      | inr err => Return (serviceNames st) (Some err)
      | inl currentState =>
        if bool_decide (currentState <> serviceStateRunning) then
          Continue {| serviceNames := serviceNames st;
                      servicesToCheck := servicesToCheck st;
                      servicesByName := servicesByName st;
                      i := i' |}
        else
          let byName := <[serviceName := serviceName]> (servicesByName st) in
          let names := serviceName :: serviceNames st in
          match GetDependents host service with
          | inr err => Return names (Some err)
          | inl dependents =>
            Continue {| serviceNames := names;
                        servicesToCheck := servicesToCheck st ++ dependents;
                        servicesByName := byName;
                        i := i' |}
          end
      end
    end
  end.

(** The [for] loop.  Go's loop has no bound; [fuel] bounds the number of
    iterations and [None] says the bound was reached before the loop
    returned. *)
Fixpoint loop (fuel : nat) (st : loop_state) : option (list string * option error) :=
  match fuel with
  | O => None
  | S fuel' =>
    match loop_body st with
    | Return names err => Some (names, err)
    | Continue st' => loop fuel' st'
    end
  end.

Definition GetDependentsForService (fuel : nat) (name : string)
  : option (list string * option error) :=
  match GetService host name with
  | inr err => Some ([], Some err)
  | inl service =>
    loop fuel {| serviceNames := [];
                 servicesToCheck := [service];
                 servicesByName := ∅;
                 i := 0 |}
  end.

(** The call returns [r]: some number of iterations suffices. *)
Definition Returns (name : string) (r : list string * option error) : Prop :=
  exists fuel, GetDependentsForService fuel name = Some r.


End Dependents.

(** ** Hosts given by a table

    A finite service graph as a list of rows [(name, (state, dependents))];
    the handle of a service is its name.  Used for the concrete graphs
    below. *)
Definition service_table : Type := list (string * (string * list string)).

Fixpoint table_lookup (t : service_table) (name : string)
  : option (string * list string) :=
  match t with
  | [] => None
  | (n, row) :: t' => if bool_decide (n = name) then Some row else table_lookup t' name
  end.

Definition tableHost (t : service_table) : ServiceHost string := {|
  GetService name :=
    match table_lookup t name with
    | Some _ => inl name
    | None => inr NotFound
    end;
  GetPropertyName h := inl h;
  GetPropertyState h :=
    match table_lookup t h with
    | Some (st, _) => inl st
    | None => inr NotFound
    end;
  GetDependents h :=
    match table_lookup t h with
    | Some (_, deps) => inl deps
    | None => inr NotFound
    end;
|}.

(** A diamond of running services: B and C depend on A, D depends on both. *)
Definition diamond : service_table :=
  [ ("A", ("Running", ["B"; "C"]));
    ("B", ("Running", ["D"]));
    ("C", ("Running", ["D"]));
    ("D", ("Running", [])) ].

(** Two running services that list each other as dependents. *)
Definition cycle : service_table :=
  [ ("A", ("Running", ["B"]));
    ("B", ("Running", ["A"])) ].

(** What holds of the loop variables at every iteration on [cycle]: the
    queue is one longer than the index, and holds only the two services. *)
Definition cycle_inv (st : loop_state (H:=string)) : Prop :=
  length (servicesToCheck st) = S (i st) /\
  Forall (fun h => h = "A" \/ h = "B") (servicesToCheck st).

(** Root A with dependents B and C, and D reachable only through the
    stopped C. *)
Definition graph_C_to_D : service_table :=
  [ ("A", ("Running", ["B"; "C"]));
    ("B", ("Running", []));
    ("C", ("Stopped", ["D"]));
    ("D", ("Running", [])) ].

(** ** WaitUntilServiceState *)

(** What [stateCheckFunc] returns: [(done, state, service, err)]. *)
Record check_result (H : Type) : Type := {
  done : bool;
  state : string;
  service : option H;
  err : option error;
}.
Arguments done {H}.
Arguments state {H}.
Arguments service {H}.
Arguments err {H}.

(** The calls and channel receives of one run, in program order. *)
Inductive call : Type :=
| CallCheck (done : bool) (state : string) (err : option error)
| CallTransition (err : option error)
| RecvTicker
| RecvTimeout.

#[global] Instance call_eq_dec : EqDecision call.
Proof. solve_decision. Defined.

Definition is_transition (c : call) : bool :=
  match c with CallTransition _ => true | _ => false end.

Definition is_check (c : call) : bool :=
  match c with CallCheck _ _ _ => true | _ => false end.

Definition transitions (l : list call) : nat := length (List.filter is_transition l).
Definition checks (l : list call) : nat := length (List.filter is_check l).

Section Wait.
(** [W] is whatever the two closures read and write (the host's services,
    captured variables such as [dependentRunning]). *)
Context {H W : Type}.

Definition stateCheckFunc : Type := W -> check_result H * W.
Definition stateTransitionFunc : Type := option H -> W -> option error * W.

Record wait_result : Type := {
  ret_state : string;
  ret_err : option error;
  world : W;
  calls : list call;
}.

Definition check_call (r : check_result H) : call :=
  CallCheck (done r) (state r) (err r).

(** The [for { select { ... } }] loop (api.go lines 313-327).  The ticker
    and the timer are real-time devices; what a run sees of them is how
    many times the ticker case is taken before the timeout case is:
    [ticks].  The timer fires once and for good, so every run is of this
    shape, and the recursion on [ticks] is the loop. *)
Fixpoint poll (stateCheck : stateCheckFunc) (ticks : nat) (w : W) : wait_result :=
  match ticks with
  | S ticks' =>
    (* case <-ticker.C *)
    let '(r, w1) := stateCheck w in
    match err r with
    | Some e =>
      {| ret_state := state r; ret_err := Some (ErrWrap "check failed: %w" e);
         world := w1; calls := [RecvTicker; check_call r] |}
    | None =>
      if done r then
        {| ret_state := state r; ret_err := None;
           world := w1; calls := [RecvTicker; check_call r] |}
      else
        let res := poll stateCheck ticks' w1 in
        {| ret_state := ret_state res; ret_err := ret_err res;
           world := world res;
           calls := RecvTicker :: check_call r :: calls res |}
    end
  | O =>
    (* case <-timeoutChan *)
    let '(r, w1) := stateCheck w in
    {| ret_state := state r; ret_err := Some Timedout;
       world := w1; calls := [RecvTimeout; check_call r] |}
  end.

Definition WaitUntilServiceState
    (stateTransition : stateTransitionFunc) (stateCheck : stateCheckFunc)
    (ticks : nat) (w : W) : wait_result :=
  let '(r, w1) := stateCheck w in
  match err r with
  | Some e =>
    {| ret_state := state r; ret_err := Some e; world := w1;
       calls := [check_call r] |}
  | None =>
    if done r then
      {| ret_state := state r; ret_err := None; world := w1;
         calls := [check_call r] |}
    else
      (* Perform transition if not already in desired state *)
      let '(terr, w2) := stateTransition (service r) w1 in
      match terr with
      | Some e =>
        {| ret_state := state r; ret_err := Some e; world := w2;
           calls := [check_call r; CallTransition terr] |}
      | None =>
        let res := poll stateCheck ticks w2 in
        {| ret_state := ret_state res; ret_err := ret_err res;
           world := world res;
           calls := check_call r :: CallTransition terr :: calls res |}
      end
  end.

(** The world after [n] polls in a row that found the service not done and
    did not fail; [None] if one of them reported done or failed. *)
Fixpoint afterPending (stateCheck : stateCheckFunc) (n : nat) (w : W) : option W :=
  match n with
  | O => Some w
  | S n' =>
    let '(r, w1) := stateCheck w in
    match err r with
    | Some _ => None
    | None => if done r then None else afterPending stateCheck n' w1
    end
  end.

End Wait.
Arguments wait_result : clear implicits.
Arguments stateCheckFunc : clear implicits.
Arguments stateTransitionFunc : clear implicits.

(** A service that is stopped and stays stopped: the world counts the
    checks made so far, every check answers "Stopped", and the transition is
    accepted. *)
Definition neverRunningCheck : stateCheckFunc string nat :=
  fun n => ({| done := false; state := "Stopped"; service := Some "svc"; err := None |}, S n).

Definition acceptTransition : stateTransitionFunc string nat :=
  fun _ n => (None, n).

(** A check that fails on its third call (the second poll tick). *)
Definition failingCheck : stateCheckFunc string nat :=
  fun n =>
    ({| done := false; state := "Start Pending"; service := Some "svc";
        err := if bool_decide (n = 2) then Some (ErrNew "wmi failure") else None |}, S n).

(** A service that is already running. *)
Definition runningCheck : stateCheckFunc string nat :=
  fun n => ({| done := true; state := "Running"; service := Some "svc"; err := None |}, S n).

(** ** The traversal of GetDependentsForService, seen from outside *)

Section Traversal.
Context {H : Type} (host : ServiceHost H).

(** The name under which the loop records [h]: [h] answers its name and
    reports the running state. *)
Definition runningName (h : H) : option string :=
  match GetPropertyName host h, GetPropertyState host h with
  | inl name, inl state =>
    if bool_decide (state = serviceStateRunning) then Some name else None
  | _, _ => None
  end.

(** The services the loop appends to the queue when it has processed [h]. *)
Definition expands (h : H) : list H :=
  match runningName h, GetDependents host h with
  | Some _, inl dependents => dependents
  | _, _ => []
  end.

(** Reachable from [root] along dependents of running services. *)
Inductive reached (root : H) : H -> Prop :=
| reached_root : reached root root
| reached_dependent (h d : H) :
    reached root h -> d ∈ expands h -> reached root d.

(** Number of nodes of the tree of running dependents below [h], when its
    depth is less than [depth]. *)
Fixpoint treeSize (depth : nat) (h : H) : option nat :=
  match depth with
  | O => None
  | S depth' =>
    sizes ← mapM (treeSize depth') (expands h);
    Some (S (sum_list sizes))
  end.

(** What holds of the loop variables before every iteration of a traversal
    that started at [root]. *)
Record traversal_inv (root : H) (st : loop_state) : Prop := {
  inv_index : i st <= length (servicesToCheck st);
  inv_names :
    serviceNames st = rev (omap runningName (take (i st) (servicesToCheck st)));
  inv_queue :
    servicesToCheck st = root :: flat_map expands (take (i st) (servicesToCheck st));
  inv_reached : Forall (reached root) (servicesToCheck st);
  inv_later :
    forall q1 h q2 d,
      servicesToCheck st = q1 ++ h :: q2 -> length q1 < i st ->
      d ∈ expands h -> d ∈ q2;
}.

End Traversal.

(** ** WaitUntilServiceState: what a run looks like *)

Definition lastCheck (l : list call) : option call := last (List.filter is_check l).

(** A service that reports "Running" from the third check on. *)
Definition startingCheck : stateCheckFunc string nat :=
  fun n =>
    ({| done := bool_decide (2 <= n);
        state := if bool_decide (2 <= n) then "Running" else "Start Pending";
        service := Some "svc"; err := None |}, S n).

(** ** APIImplementor: StartService and StopService *)

Definition startServiceErrorCodeAccepted : N := 0.
Definition startServiceErrorCodeAlreadyRunning : N := 10.
Definition stopServiceErrorCodeAccepted : N := 0.
Definition stopServiceErrorCodeStopPending : N := 5.
Definition stopServiceErrorCodeDependentRunning : N := 3.

(** The calls of [StartService] and [StopService] into the host:
    [ServiceFactory.GetService] and three methods of [ServiceInterface].
    They read and change the host, a world of type [W]; a method returns
    its value together with its error, as in Go. *)
Record ServiceControl (H W : Type) : Type := {
  Factory_GetService : string -> W -> result H * W;
  Service_GetPropertyState : H -> W -> (string * option error) * W;
  Service_StartService : H -> W -> (N * option error) * W;
  Service_StopService : H -> W -> (N * option error) * W;
}.
Arguments Factory_GetService {H W}.
Arguments Service_GetPropertyState {H W}.
Arguments Service_StartService {H W}.
Arguments Service_StopService {H W}.

Section APIImplementor.
Context {H W : Type} (ctl : ServiceControl H W).
(** [wmierrors.IsTimedout], of the WMI library. *)
Variable IsTimedout : error -> bool.

(** The closure [startService] of [StartService].  A method call on a nil
    [ServiceInterface] does not return; [WaitUntilServiceState] passes the
    service of a check that returned no error, and [serviceRunningCheck]
    then returns the service it found, so the case is not reached. *)
Definition startService (service : option H) (w : W) : option error * W :=
  match service with
  | None => (Some (ErrNew "invalid memory address or nil pointer dereference"), w)
  | Some service =>
    let '((retVal, err), w1) := Service_StartService ctl service w in
    if bool_decide (err <> None)
       || (bool_decide (retVal <> startServiceErrorCodeAccepted)
           && bool_decide (retVal <> startServiceErrorCodeAlreadyRunning))
    then (Some (ErrNew "error starting service name %s. return value: %d, error: %v"), w1)
    else (None, w1)
  end.

(** The closure [serviceRunningCheck] of [StartService]. *)
Definition serviceRunningCheck (name : string) (w : W) : check_result H * W :=
  let '(r, w1) := Factory_GetService ctl name w in
  match r with
  | inr err => ({| done := false; state := ""; service := None; err := Some err |}, w1)
  | inl service =>
    let '((state, err), w2) := Service_GetPropertyState ctl service w1 in
    match err with
    | Some e =>
      ({| done := false; state := state; service := Some service; err := Some e |}, w2)
    | None =>
      ({| done := bool_decide (state = serviceStateRunning); state := state;
          service := Some service; err := None |}, w2)
    end
  end.

Definition StartService (name : string) (ticks : nat) (w : W) : option error * W :=
  let res := WaitUntilServiceState startService (serviceRunningCheck name) ticks w in
  let timedOut :=
    if bool_decide (ret_state res <> serviceStateRunning)
    then Some (ErrNew "timed out waiting for service %s to become running")
    else None in
  match ret_err res with
  | Some err => if negb (IsTimedout err) then (Some err, world res) else (timedOut, world res)
  | None => (timedOut, world res)
  end.

(** The closures of [stopSingleService]; the captured variable
    [dependentRunning] is the second component of their world. *)
Definition stopService (service : option H) (w : W * bool) : option error * (W * bool) :=
  match service with
  | None => (Some (ErrNew "invalid memory address or nil pointer dereference"), w)
  | Some service =>
    let '((retVal, err), w1) := Service_StopService ctl service w.1 in
    if bool_decide (err <> None)
       || (bool_decide (retVal <> stopServiceErrorCodeAccepted)
           && bool_decide (retVal <> stopServiceErrorCodeStopPending))
    then
      if bool_decide (retVal = stopServiceErrorCodeDependentRunning)
      then (Some (ErrNew "error stopping service %s as dependent services are not stopped"),
            (w1, true))
      else (Some (ErrNew "error stopping service %s. return value: %d, error: %v"),
            (w1, w.2))
    else (None, (w1, w.2))
  end.

Definition serviceStoppedCheck (name : string) (w : W * bool)
  : check_result H * (W * bool) :=
  let '(r, w1) := Factory_GetService ctl name w.1 in
  match r with
  | inr err => ({| done := false; state := ""; service := None; err := Some err |}, (w1, w.2))
  | inl service =>
    let '((state, err), w2) := Service_GetPropertyState ctl service w1 in
    match err with
    | Some e =>
      ({| done := false; state := state; service := Some service; err := Some e |},
       (w2, w.2))
    | None =>
      ({| done := bool_decide (state = serviceStateStopped); state := state;
          service := Some service; err := None |}, (w2, w.2))
    end
  end.

Definition stopSingleService (name : string) (ticks : nat) (w : W)
  : bool * option error * W :=
  let res := WaitUntilServiceState stopService (serviceStoppedCheck name) ticks (w, false) in
  let dependentRunning := (world res).2 in
  let timedOut :=
    if bool_decide (ret_state res <> serviceStateStopped)
    then Some (ErrNew "timed out waiting for service %s to stop")
    else None in
  match ret_err res with
  | Some err =>
    if negb (IsTimedout err)
    then (dependentRunning, Some (ErrNew "error stopping service name %s. current state: %s"),
          (world res).1)
    else (dependentRunning, timedOut, (world res).1)
  | None => (dependentRunning, timedOut, (world res).1)
  end.

(** The loop of [StopService] over the dependents; [ticks k] is the number
    of polls before the timeout in the [k]-th wait of the call. *)
Fixpoint stopEachService (serviceNames : list string) (ticks : nat -> nat) (k : nat)
    (w : W) : option error * W :=
  match serviceNames with
  | [] => (None, w)
  | serviceName :: rest =>
    let '(_, err, w1) := stopSingleService serviceName (ticks k) w in
    match err with
    | Some e => (Some e, w1)
    | None => stopEachService rest ticks (S k) w1
    end
  end.

(** [hostAt w] is what the reads of [GetDependentsForService] answer in the
    world [w]; the result is [None] when the traversal has not returned
    within [fuel] iterations. *)
Definition StopService (hostAt : W -> ServiceHost H) (fuel : nat)
    (name : string) (force : bool) (ticks : nat -> nat) (w : W)
  : option (option error * W) :=
  let '(dependentRunning, err, w1) := stopSingleService name (ticks 0) w in
  if bool_decide (err = None) || negb dependentRunning || negb force then
    Some (err, w1)
  else
    match GetDependentsForService (hostAt w1) fuel name with
    | None => None
    | Some (serviceNames, Some _) =>
      Some (Some (ErrNew "error getting dependent services for service name %s"), w1)
    | Some (serviceNames, None) => Some (stopEachService serviceNames ticks 1 w1)
    end.

End APIImplementor.

(** A host with one service, "svc", whose state is the world.  The host
    answers a start request with [startCode] and a stop request with
    [stopCode]; an accepted request takes effect at once. *)
Definition toyControl (startCode stopCode : N) : ServiceControl string string := {|
  Factory_GetService name w :=
    (if bool_decide (name = "svc") then inl "svc" else inr NotFound, w);
  Service_GetPropertyState h w := ((w, None), w);
  Service_StartService h w :=
    ((startCode, None), if bool_decide (startCode = 0%N) then "Running" else w);
  Service_StopService h w :=
    ((stopCode, None), if bool_decide (stopCode = 0%N) then "Stopped" else w);
|}.

Definition isTimedout (e : error) : bool := bool_decide (e = Timedout).

(** The service graph seen by the traversal on the toy host: "svc" in the
    state of the world, with one running dependent. *)
Definition toyHostAt (w : string) : ServiceHost string :=
  tableHost [ ("svc", (w, ["dep"])); ("dep", ("Running", [])) ].

(** ** Start types and states as numbers *)

(** The constants of the package [pkg/server/system/impl], which is not
    among the sources. *)
Record impl_constants : Type := {
  START_TYPE_BOOT : N;
  START_TYPE_SYSTEM : N;
  START_TYPE_AUTOMATIC : N;
  START_TYPE_MANUAL : N;
  START_TYPE_DISABLED : N;
  SERVICE_STATUS_UNKNOWN : N;
  SERVICE_STATUS_STOPPED : N;
  SERVICE_STATUS_START_PENDING : N;
  SERVICE_STATUS_STOP_PENDING : N;
  SERVICE_STATUS_RUNNING : N;
  SERVICE_STATUS_CONTINUE_PENDING : N;
  SERVICE_STATUS_PAUSE_PENDING : N;
  SERVICE_STATUS_PAUSED : N;
}.

(** The entries of the map literals [startModeMappings] and
    [stateMappings]. *)
Definition startModeEntries (impl : impl_constants) : list (string * N) :=
  [ ("Boot", START_TYPE_BOOT impl);
    ("System", START_TYPE_SYSTEM impl);
    ("Auto", START_TYPE_AUTOMATIC impl);
    ("Manual", START_TYPE_MANUAL impl);
    ("Disabled", START_TYPE_DISABLED impl) ].

Definition stateEntries (impl : impl_constants) : list (string * N) :=
  [ ("Unknown", SERVICE_STATUS_UNKNOWN impl);
    (serviceStateStopped, SERVICE_STATUS_STOPPED impl);
    ("Start Pending", SERVICE_STATUS_START_PENDING impl);
    ("Stop Pending", SERVICE_STATUS_STOP_PENDING impl);
    (serviceStateRunning, SERVICE_STATUS_RUNNING impl);
    ("Continue Pending", SERVICE_STATUS_CONTINUE_PENDING impl);
    ("Pause Pending", SERVICE_STATUS_PAUSE_PENDING impl);
    ("Paused", SERVICE_STATUS_PAUSED impl) ].

Definition startModeMappings (impl : impl_constants) : gmap string N :=
  list_to_map (startModeEntries impl).

Definition stateMappings (impl : impl_constants) : gmap string N :=
  list_to_map (stateEntries impl).

(** Indexing a Go map with a key it lacks gives the zero value. *)
Definition serviceStartModeToStartType (impl : impl_constants) (startMode : string) : N :=
  default 0%N (startModeMappings impl !! startMode).

Definition serviceState (impl : impl_constants) (status : string) : N :=
  default 0%N (stateMappings impl !! status).

(** The numbers of the Windows service API, for the examples. *)
Definition winConstants : impl_constants := {|
  START_TYPE_BOOT := 0; START_TYPE_SYSTEM := 1; START_TYPE_AUTOMATIC := 2;
  START_TYPE_MANUAL := 3; START_TYPE_DISABLED := 4;
  SERVICE_STATUS_UNKNOWN := 0; SERVICE_STATUS_STOPPED := 1;
  SERVICE_STATUS_START_PENDING := 2; SERVICE_STATUS_STOP_PENDING := 3;
  SERVICE_STATUS_RUNNING := 4; SERVICE_STATUS_CONTINUE_PENDING := 5;
  SERVICE_STATUS_PAUSE_PENDING := 6; SERVICE_STATUS_PAUSED := 7;
|}.

End System.

(** * pkg/cim: iSCSI queries and the correlation of instances *)
Module Cim.

(** The two namespaces the sources name. *)
Inductive namespace : Type := WMINamespaceStorage | WMINamespaceSmb.

(** [query.WmiQuery] as far as the sources build it: the class, the select
    list and the (property, value) equality filters. *)
Record WmiQuery : Type := {
  ClassName : string;
  Selectors : list string;
  Filters : list (string * string);
}.

Definition NewWmiQueryWithSelectList (className : string)
    (selectorList : list string) (filters : list (string * string)) : WmiQuery :=
  {| ClassName := className; Selectors := selectorList; Filters := filters |}.

Definition NewWmiQuery (className : string) (filters : list (string * string))
  : WmiQuery :=
  {| ClassName := className; Selectors := []; Filters := filters |}.

(** What a Go call does: it returns, or it panics. *)
Inductive outcome (A : Type) : Type :=
| Returned (a : A)
| Panicked (reason : string).
Arguments Returned {A}.
Arguments Panicked {A}.

(** [xs[0]]. *)
Definition index0 {A : Type} (xs : list A) : outcome A :=
  match xs !! 0%nat with
  | Some x => Returned x
  | None => Panicked "index out of range [0] with length 0"
  end.

(** An indexer maps an instance to its key, or fails. *)
Definition InstanceIndexer (I : Type) : Type := I -> result string.

(** The management-instrumentation collaborator: instances of type [I],
    the query call, the two indexer constructors, the typed wrapper of a
    target portal (of type [P]) and method invocation.  None of them is
    among the sources. *)
Record WmiHost (I P : Type) : Type := {
  QueryInstances : namespace -> WmiQuery -> list I * option error;
  mappingObjectRefIndexer : string -> string -> string -> InstanceIndexer I;
  stringPropertyIndexer : string -> InstanceIndexer I;
  NewMSFT_iSCSITargetPortalEx1 : I -> result P;
  InvokeMethod : I -> string -> option error;
}.
Arguments QueryInstances {I P}.
Arguments mappingObjectRefIndexer {I P}.
Arguments stringPropertyIndexer {I P}.
Arguments NewMSFT_iSCSITargetPortalEx1 {I P}.
Arguments InvokeMethod {I P}.

Section Queries.
Context {I P : Type} (wmi : WmiHost I P).

(** [port] is a [uint32]; [strconv.Itoa(int(port))] is its decimal
    numeral. *)
Definition QueryISCSITargetPortal (address : string) (port : N)
    (selectorList : list string) : outcome (result P) :=
  let portalQuery :=
    NewWmiQueryWithSelectList "MSFT_iSCSITargetPortal" selectorList
      [("TargetPortalAddress", address);
       ("TargetPortalPortNumber", pretty port)] in
  let '(instances, err) := QueryInstances wmi WMINamespaceStorage portalQuery in
  match err with
  | Some e => Returned (inr e)
  | None =>
    match index0 instances with
    | Panicked reason => Panicked reason
    | Returned instance =>
      match NewMSFT_iSCSITargetPortalEx1 wmi instance with
      | inr _ =>
        Returned (inr (ErrNew "failed to query iSCSI target portal at (%s:%d). error: %v"))
      | inl targetPortal => Returned (inl targetPortal)
      end
    end
  end.

(** *** The mapping table *)

(** Modelled from the spec: [ListWMIInstanceMappings] is not among the
    sources.  The spec (4.1, building a mapping table): it "lists every
    record in the named association collection once; for each, applies
    both Indexers and inserts the pair", and fails if the listing fails,
    discarding partial results.  The table is the [map[string]string] that
    the callers in the sources return; inserting is Go's map assignment. *)
Fixpoint insertPairs (rows : list I) (keyIndexer valueIndexer : InstanceIndexer I)
    (table : gmap string string) : result (gmap string string) :=
  match rows with
  | [] => inl table
  | row :: rows' =>
    match keyIndexer row with
    | inr e => inr e
    | inl key =>
      match valueIndexer row with
      | inr e => inr e
      | inl value => insertPairs rows' keyIndexer valueIndexer (<[key := value]> table)
      end
    end
  end.

(** Modelled from the spec: see [insertPairs]. *)
Definition ListWMIInstanceMappings (ns : namespace) (className : string)
    (selectorList : list string) (keyIndexer valueIndexer : InstanceIndexer I)
  : result (gmap string string) :=
  let '(rows, err) :=
    QueryInstances wmi ns (NewWmiQueryWithSelectList className selectorList []) in
  match err with
  | Some e => inr e
  | None => insertPairs rows keyIndexer valueIndexer ∅
  end.

Definition mappingISCSITargetIndexer : InstanceIndexer I :=
  mappingObjectRefIndexer wmi "iSCSITarget" "MSFT_iSCSITarget" "NodeAddress".
Definition mappingISCSITargetPortalIndexer : InstanceIndexer I :=
  mappingObjectRefIndexer wmi "iSCSITargetPortal" "MSFT_iSCSITargetPortal" "TargetPortalAddress".
Definition mappingISCSIConnectionIndexer : InstanceIndexer I :=
  mappingObjectRefIndexer wmi "iSCSIConnection" "MSFT_iSCSIConnection" "ConnectionIdentifier".
Definition mappingISCSISessionIndexer : InstanceIndexer I :=
  mappingObjectRefIndexer wmi "iSCSISession" "MSFT_iSCSISession" "SessionIdentifier".

Definition ListISCSITargetToISCSITargetPortalMapping : result (gmap string string) :=
  ListWMIInstanceMappings WMINamespaceStorage "MSFT_iSCSITargetToiSCSITargetPortal" []
    mappingISCSITargetIndexer mappingISCSITargetPortalIndexer.

Definition ListISCSIConnectionToISCSITargetMapping : result (gmap string string) :=
  ListWMIInstanceMappings WMINamespaceStorage "MSFT_iSCSITargetToiSCSIConnection" []
    mappingISCSIConnectionIndexer mappingISCSITargetIndexer.

Definition ListISCSISessionToISCSITargetMapping : result (gmap string string) :=
  ListWMIInstanceMappings WMINamespaceStorage "MSFT_iSCSITargetToiSCSISession" []
    mappingISCSISessionIndexer mappingISCSITargetIndexer.

Definition ListDiskToISCSIConnectionMapping : result (gmap string string) :=
  ListWMIInstanceMappings WMINamespaceStorage "MSFT_iSCSIConnectionToDisk" []
    (mappingObjectRefIndexer wmi "Disk" "MSFT_Disk" "ObjectId")
    mappingISCSIConnectionIndexer.

End Queries.

(** The target-side keys that the association rows pair with the source
    key [k], one per row, in row order: what the rows themselves say. *)
Fixpoint rowTargets {I : Type} (rows : list I)
    (keyIndexer valueIndexer : InstanceIndexer I) (k : string) : list string :=
  match rows with
  | [] => []
  | row :: rows' =>
    match keyIndexer row, valueIndexer row with
    | inl key, inl value =>
      if bool_decide (key = k)
      then value :: rowTargets rows' keyIndexer valueIndexer k
      else rowTargets rows' keyIndexer valueIndexer k
    | _, _ => rowTargets rows' keyIndexer valueIndexer k
    end
  end.

(** The target-side keys a lookup in the table yields. *)
Definition lookupTargets (table : gmap string string) (k : string) : list string :=
  match table !! k with
  | Some v => [v]
  | None => []
  end.

(** *** The correlation *)

Section Correlation.
Context {I : Type}.

(** Modelled from the spec: [FindInstancesByMapping] is not among the
    sources.  The spec (4.1): "build a set of reference Keys (applying
    referenceIndexer to each reference record, deduplicated)"; an indexer
    that yields no key fails the operation. *)
Fixpoint referenceKeys (associatedInstances : list I)
    (associatedInstanceIndexer : InstanceIndexer I) : result (gset string) :=
  match associatedInstances with
  | [] => inl ∅
  | inst :: rest =>
    match associatedInstanceIndexer inst with
    | inr e => inr e
    | inl key =>
      match referenceKeys rest associatedInstanceIndexer with
      | inr e => inr e
      | inl keys => inl ({[ key ]} ∪ keys)
      end
    end
  end.

(** Modelled from the spec: "for each source record, extract its Key via
    sourceIndexer, look it up as the source side of mappingTable to obtain
    zero or more target-side Keys, and keep the source record iff at least
    one resulting target Key is a member of the reference-Key set". *)
Fixpoint keepMapped (instanceToFind : list I) (instanceToFindIndex : InstanceIndexer I)
    (keys : gset string) (instanceMappings : gmap string string) : result (list I) :=
  match instanceToFind with
  | [] => inl []
  | inst :: rest =>
    match instanceToFindIndex inst with
    | inr e => inr e
    | inl key =>
      match keepMapped rest instanceToFindIndex keys instanceMappings with
      | inr e => inr e
      | inl filtered =>
        if existsb (fun v => bool_decide (v ∈ keys)) (lookupTargets instanceMappings key)
        then inl (inst :: filtered)
        else inl filtered
      end
    end
  end.

(** Modelled from the spec: the contract
    [correlate(sourceRecords, sourceIndexer, referenceRecords,
    referenceIndexer, mappingTable)] under the name and argument order of
    its callers in the sources. *)
Definition FindInstancesByMapping (instanceToFind : list I)
    (instanceToFindIndex : InstanceIndexer I) (associatedInstances : list I)
    (associatedInstanceIndexer : InstanceIndexer I)
    (instanceMappings : gmap string string) : result (list I) :=
  match referenceKeys associatedInstances associatedInstanceIndexer with
  | inr e => inr e
  | inl keys => keepMapped instanceToFind instanceToFindIndex keys instanceMappings
  end.

End Correlation.

(** An indexer is total on the records it is given when each of them
    yields a key. *)
Definition totalOn {I : Type} (indexer : InstanceIndexer I) (records : list I) : Prop :=
  forall inst, inst ∈ records -> exists key, indexer inst = inl key.

(** A host on which the target "iqn.t1" is reachable through two portals:
    the association class has two rows with that target.  An instance is
    its pair of object references. *)
Definition multipathRows : list (string * string) :=
  [ ("iqn.t1", "10.0.0.1"); ("iqn.t1", "10.0.0.2"); ("iqn.t2", "10.0.0.1") ].

Definition multipathWmi : WmiHost (string * string) unit := {|
  QueryInstances ns q :=
    if bool_decide (ClassName q = "MSFT_iSCSITargetToiSCSITargetPortal")
    then (multipathRows, None) else ([], Some NotFound);
  mappingObjectRefIndexer prop cls key inst :=
    if bool_decide (prop = "iSCSITarget") then inl inst.1
    else if bool_decide (prop = "iSCSITargetPortal") then inl inst.2
    else inr NotFound;
  stringPropertyIndexer prop inst := inl inst.1;
  NewMSFT_iSCSITargetPortalEx1 inst := inl tt;
  InvokeMethod inst method := None;
|}.

(** A host whose queries find nothing and report no error. *)
Definition emptyWmi : WmiHost unit unit := {|
  QueryInstances ns q := ([], None);
  mappingObjectRefIndexer prop cls key inst := inr NotFound;
  stringPropertyIndexer prop inst := inr NotFound;
  NewMSFT_iSCSITargetPortalEx1 inst := inl tt;
  InvokeMethod inst method := None;
|}.

(** Records of two kinds, each with the indexer of its kind: a target is
    indexed by its node address and a portal by its address; an indexer
    fails on a record of the other kind.  And a table from targets to
    portals. *)
Inductive sampleRecord : Type :=
| Target (nodeAddress : string)
| Portal (portalAddress : string).

Definition targetIndexer : InstanceIndexer sampleRecord :=
  fun inst =>
    match inst with
    | Target nodeAddress => inl nodeAddress
    | Portal _ => inr (ErrNew "property NodeAddress not found")
    end.

Definition portalIndexer : InstanceIndexer sampleRecord :=
  fun inst =>
    match inst with
    | Portal portalAddress => inl portalAddress
    | Target _ => inr (ErrNew "property TargetPortalAddress not found")
    end.

Definition sampleMappings : gmap string string :=
  <["iqn.t1" := "10.0.0.1"]> (<["iqn.t2" := "10.0.0.2"]> ∅).

(** ** More of the iSCSI queries *)

(** A value of the parameter map of a method call. *)
Inductive param : Type :=
| ParamString (s : string)
| ParamUint32 (n : N)
| ParamInt (n : Z)
| ParamBool (b : bool).

(** [m[key] = *p] when the pointer [p] is not nil. *)
Definition setIfGiven {A : Type} (key : string) (wrap : A -> param) (p : option A)
    (m : gmap string param) : gmap string param :=
  match p with
  | Some v => <[key := wrap v]> m
  | None => m
  end.

(** The parameter map that [NewISCSITargetPortal] builds. *)
Definition newPortalParams (targetPortalAddress : string) (targetPortalPortNumber : N)
    (initiatorInstanceName initiatorPortalAddress : option string)
    (isHeaderDigest isDataDigest : option bool) : gmap string param :=
  setIfGiven "IsDataDigest" ParamBool isDataDigest
    (setIfGiven "IsHeaderDigest" ParamBool isHeaderDigest
       (setIfGiven "InitiatorPortalAddress" ParamString initiatorPortalAddress
          (setIfGiven "InitiatorInstanceName" ParamString initiatorInstanceName
             (<["TargetPortalPortNumber" := ParamUint32 targetPortalPortNumber]>
                (<["TargetPortalAddress" := ParamString targetPortalAddress]> ∅))))).

(** The parameter map that [ConnectISCSITarget] builds. *)
Definition connectParams (portalAddress : string) (portalPortNumber : N)
    (nodeAddress authType : string) (chapUsername chapSecret : option string)
  : gmap string param :=
  setIfGiven "ChapSecret" ParamString chapSecret
    (setIfGiven "ChapUsername" ParamString chapUsername
       (<["AuthenticationType" := ParamString authType]>
          (<["TargetPortalPortNumber" := ParamInt (Z.of_N portalPortNumber)]>
             (<["TargetPortalAddress" := ParamString portalAddress]>
                (<["NodeAddress" := ParamString nodeAddress]> ∅))))).

Section MoreQueries.
Context {I P : Type} (wmi : WmiHost I P).
(** [cim.IgnoreNotFound] and [cim.InvokeCimMethod], not among the sources;
    of the method call the result code and the error are kept. *)
Variable IgnoreNotFound : option error -> option error.
Variable InvokeCimMethod : namespace -> string -> string -> gmap string param -> Z * option error.

(** The loop of [ListISCSITargetPortals]. *)
Fixpoint wrapPortals (instances : list I) (targetPortals : list P) : result (list P) :=
  match instances with
  | [] => inl targetPortals
  | instance :: rest =>
    match NewMSFT_iSCSITargetPortalEx1 wmi instance with
    | inr _ => inr (ErrNew "failed to query iSCSI target portal %v. error: %v")
    | inl portal => wrapPortals rest (targetPortals ++ [portal])
    end
  end.

Definition ListISCSITargetPortals (selectorList : list string) : result (list P) :=
  let q := NewWmiQueryWithSelectList "MSFT_IscsiTargetPortal" selectorList [] in
  let '(instances, err) := QueryInstances wmi WMINamespaceStorage q in
  match IgnoreNotFound err, err with
  | Some _, Some e => inr e
  | Some _, None => inl []
  | None, _ => wrapPortals instances []
  end.

Definition NewISCSITargetPortal (targetPortalAddress : string) (targetPortalPortNumber : N)
    (initiatorInstanceName initiatorPortalAddress : option string)
    (isHeaderDigest isDataDigest : option bool) : outcome (result P) :=
  let params :=
    newPortalParams targetPortalAddress targetPortalPortNumber initiatorInstanceName
      initiatorPortalAddress isHeaderDigest isDataDigest in
  let '(result, err) :=
    InvokeCimMethod WMINamespaceStorage "MSFT_iSCSITargetPortal" "New" params in
  match err with
  | Some _ =>
    Returned (inr (ErrNew "failed to create iSCSI target portal with %v. result: %d, error: %v"))
  | None => QueryISCSITargetPortal wmi targetPortalAddress targetPortalPortNumber []
  end.

Definition ConnectISCSITarget (portalAddress : string) (portalPortNumber : N)
    (nodeAddress authType : string) (chapUsername chapSecret : option string)
  : Z * option error :=
  InvokeCimMethod WMINamespaceStorage "MSFT_iSCSITarget" "Connect"
    (connectParams portalAddress portalPortNumber nodeAddress authType chapUsername chapSecret).

End MoreQueries.

(** A host with two portal instances, the second of which cannot be
    wrapped. *)
Definition brokenPortalWmi : WmiHost string string := {|
  QueryInstances ns q := (["p1"; "p2"], None);
  mappingObjectRefIndexer prop cls key inst := inr NotFound;
  stringPropertyIndexer prop inst := inr NotFound;
  NewMSFT_iSCSITargetPortalEx1 inst :=
    if bool_decide (inst = "p2") then inr (ErrNew "bad instance") else inl inst;
  InvokeMethod inst method := None;
|}.

End Cim.

(** * pkg/smb/hostapi/hostapi.go *)
Module Smb.
Import Cim.

Definition backslash : Ascii.ascii := Ascii.ascii_of_nat 92.

(** [strings.ReplaceAll(remotePath, `\`, `\\`)]: every backslash doubled. *)
Fixpoint remotePathForQuery (remotePath : string) : string :=
  match remotePath with
  | EmptyString => EmptyString
  | String c rest =>
    if bool_decide (c = backslash)
    then String backslash (String backslash (remotePathForQuery rest))
    else String c (remotePathForQuery rest)
  end.

Section Mapping.
Context {I P : Type} (wmi : WmiHost I P).

Definition RemoveSMBGlobalMapping (remotePath : string) : outcome (option error) :=
  let smbQuery :=
    NewWmiQuery "MSFT_SmbGlobalMapping" [("RemotePath", remotePathForQuery remotePath)] in
  let '(instances, err) := QueryInstances wmi WMINamespaceSmb smbQuery in
  match err with
  | Some e => Returned (Some e)
  | None =>
    match index0 instances with
    | Panicked reason => Panicked reason
    | Returned instance =>
      match InvokeMethod wmi instance "Remove" with
      | Some _ => Returned (Some (ErrNew "error remove smb mapping '%s'. err: %v"))
      | None => Returned None
      end
    end
  end.

End Mapping.

(** ** More of pkg/smb/hostapi *)

(** The inverse of [remotePathForQuery]: of two backslashes in a row the
    second is dropped ([skip] says the previous character was a first
    backslash). *)
Fixpoint collapseBackslashes (skip : bool) (s : string) : string :=
  match s with
  | EmptyString => EmptyString
  | String c rest =>
    if skip then collapseBackslashes false rest
    else if bool_decide (c = backslash)
         then String c (collapseBackslashes true rest)
         else String c (collapseBackslashes false rest)
  end.

Fixpoint countBackslashes (s : string) : nat :=
  match s with
  | EmptyString => 0
  | String c rest =>
    if bool_decide (c = backslash) then S (countBackslashes rest) else countBackslashes rest
  end.

(** [strings.HasSuffix]. *)
Fixpoint HasSuffix (s suffix : string) : bool :=
  if bool_decide (s = suffix) then true
  else match s with
       | EmptyString => false
       | String _ rest => HasSuffix rest suffix
       end.

Section SmbMore.
Context {I P : Type} (wmi : WmiHost I P).
(** [cim.IgnoreNotFound], not among the sources. *)
Variable IgnoreNotFound : option error -> option error.
(** [utils.RunPowershellCmd]: the script and its environment give the
    output and the error. *)
Variable RunPowershellCmd : string -> list string -> string * option error.

Definition IsSMBMapped (remotePath : string) : bool * option error :=
  let smbQuery :=
    NewWmiQuery "MSFT_SmbGlobalMapping" [("RemotePath", remotePathForQuery remotePath)] in
  let '(instances, err) := QueryInstances wmi WMINamespaceSmb smbQuery in
  match IgnoreNotFound err with
  | Some _ => (false, err)
  | None => (bool_decide (0 < length instances), None)
  end.

Definition NewSMBLink (remotePath localPath : string) : option error :=
  let remotePath :=
    if negb (HasSuffix remotePath (String backslash EmptyString))
    then remotePath +:+ String backslash EmptyString
    else remotePath in
  let cmdLine :=
    "New-Item -ItemType SymbolicLink $Env:smblocalPath -Target $Env:smbremotepath" in
  let '(output, err) :=
    RunPowershellCmd cmdLine
      ["smbremotepath=" +:+ remotePath; "smblocalpath=" +:+ localPath] in
  match err with
  | Some _ => Some (ErrNew "error linking %s to %s. output: %s, err: %v")
  | None => None
  end.

End SmbMore.

(** A host with one global mapping. *)
Definition mappedWmi : WmiHost string unit := {|
  QueryInstances ns q := (["mapping"], None);
  mappingObjectRefIndexer prop cls key inst := inr NotFound;
  stringPropertyIndexer prop inst := inr NotFound;
  NewMSFT_iSCSITargetPortalEx1 inst := inl tt;
  InvokeMethod inst method := None;
|}.

Definition ignoreNotFound (err : option error) : option error :=
  match err with
  | Some NotFound => None
  | _ => err
  end.

(** A share path. *)
Definition uncPath : string :=
  String backslash (String backslash ("srv" +:+ String backslash "share")).

End Smb.

(** * pkg/server/server.go *)
Module Server.

Record VersionedAPI : Type := {
  Group : string;
  Version : string;
}.

(** What the server does to its transport, in program order.  A listener
    is a value of type [L]; a GRPC server is named by the index of its
    endpoint.  [GoServe i l] is the [go] statement that launches the serve
    loop of endpoint [i] on [listeners[i]]; what the loop does afterwards is
    concurrent with the caller and not part of this model. *)
Inductive event (L : Type) : Type :=
| EvListenPipe (pipePath : string) (r : result L)
| EvListenerClose (listener : L)
| EvNewServer (index : nat)
| EvRegistrant (index : nat)
| EvGoServe (index : nat) (listener : option L)
| EvGrpcStop (index : nat)
| EvCloseListeningChan.
Arguments EvListenPipe {L}.
Arguments EvListenerClose {L}.
Arguments EvNewServer {L}.
Arguments EvRegistrant {L}.
Arguments EvGoServe {L}.
Arguments EvGrpcStop {L}.
Arguments EvCloseListeningChan {L}.

(** The fields of [Server] that the lifecycle reads and writes.  The mutex
    is not modelled: [startListening] and [Stop] hold it from entry to exit,
    so each is one atomic step on the record. *)
Record Server : Type := {
  versionedAPIs : list VersionedAPI;
  started : bool;
  grpcServers : list (option nat);
}.

Definition set_started (s : Server) (b : bool) : Server :=
  {| versionedAPIs := versionedAPIs s; started := b; grpcServers := grpcServers s |}.

Definition set_grpcServers (s : Server) (g : list (option nat)) : Server :=
  {| versionedAPIs := versionedAPIs s; started := started s; grpcServers := g |}.

(** How [Start] ends, as far as the caller's thread is modelled: it returns
    the errors of [startListening], or it goes on to wait on [doneChan] (of
    the given capacity) for the serve loops. *)
Inductive start_result : Type :=
| StartReturned (errs : list error)
| StartWaiting (doneChan : nat).

Section Transport.
(** [client.PipePath] and [winio.ListenPipe]; whether a pipe can be
    created may depend on everything done so far. *)
Context {L : Type}.
Variable PipePath : string -> string -> string.
Variable ListenPipe : string -> list (event L) -> result L.

(** The pipe of every endpoint, in order. *)
Definition pipePaths (apis : list VersionedAPI) : list string :=
  map (fun versionedAPI => PipePath (Group versionedAPI) (Version versionedAPI)) apis.

(** The first loop of [createListeners], from index [i] on. *)
Fixpoint listenEach (apis : list VersionedAPI) (i : nat)
    (listeners : list (option L)) (errors : list error) (log : list (event L))
  : list (option L) * list error * list (event L) :=
  match apis with
  | [] => (listeners, errors, log)
  | versionedAPI :: rest =>
    let pipePath := PipePath (Group versionedAPI) (Version versionedAPI) in
    match ListenPipe pipePath log with
    | inl listener =>
      listenEach rest (S i) (<[i := Some listener]> listeners) errors
        (log ++ [EvListenPipe pipePath (inl listener)])
    | inr err =>
      listenEach rest (S i) listeners (errors ++ [err])
        (log ++ [EvListenPipe pipePath (inr err)])
    end
  end.

(** The second loop: close every listener that is not nil. *)
Fixpoint closeEach (listeners : list (option L)) (log : list (event L))
  : list (event L) :=
  match listeners with
  | [] => log
  | Some listener :: rest => closeEach rest (log ++ [EvListenerClose listener])
  | None :: rest => closeEach rest log
  end.

Definition createListeners (s : Server) (log : list (event L))
  : list (option L) * list error * list (event L) :=
  let listeners0 := replicate (length (versionedAPIs s)) None in
  let '(listeners, errors, log1) :=
    listenEach (versionedAPIs s) 0 listeners0 [] log in
  if bool_decide (length errors <> 0)
  then (listeners, errors, closeEach listeners log1)
  else (listeners, errors, log1).

(** The loop of [createAndStartGRPCServers], from index [i] on. *)
Fixpoint serveEach (apis : list VersionedAPI) (i : nat)
    (servers : list (option nat)) (listeners : list (option L))
    (log : list (event L)) : list (option nat) * list (event L) :=
  match apis with
  | [] => (servers, log)
  | versionedAPI :: rest =>
    serveEach rest (S i) (<[i := Some i]> servers) listeners
      (log ++ [EvNewServer i; EvRegistrant i; EvGoServe i (mjoin (listeners !! i))])
  end.

Definition createAndStartGRPCServers (s : Server) (listeners : list (option L))
    (log : list (event L)) : nat * Server * list (event L) :=
  let doneChan := length (versionedAPIs s) in
  let servers0 := replicate (length (versionedAPIs s)) None in
  let '(servers, log1) := serveEach (versionedAPIs s) 0 servers0 listeners log in
  (doneChan, set_grpcServers s servers, log1).

Definition startListening (s : Server) (log : list (event L))
  : option nat * list error * Server * list (event L) :=
  if started s then
    (None, [ErrNew "server already started"], s, log)
  else
    let s1 := set_started s true in
    let '(listeners, ListenErr, log1) := createListeners s1 log in
    if bool_decide (length ListenErr <> 0) then
      (None, ListenErr, s1, log1)
    else
      let '(doneChan, s2, log2) := createAndStartGRPCServers s1 listeners log1 in
      (Some doneChan, [], s2, log2).

(** [Start] up to the call of [waitForGRPCServersToStop]; [listeningChan]
    says whether the channel passed is not nil. *)
Definition Start (s : Server) (listeningChan : bool) (log : list (event L))
  : start_result * Server * list (event L) :=
  let '(doneChan, ListenErr, s1, log1) := startListening s log in
  if bool_decide (length ListenErr <> 0) then
    (StartReturned ListenErr, s1, log1)
  else
    let log2 : list (event L) :=
      if listeningChan then (log1 ++ [EvCloseListeningChan])%list else log1 in
    (StartWaiting (default 0 doneChan), s1, log2).

Fixpoint stopEach (servers : list (option nat)) (log : list (event L))
  : list (event L) :=
  match servers with
  | [] => log
  | Some grpcServer :: rest => stopEach rest (log ++ [EvGrpcStop grpcServer])
  | None :: rest => stopEach rest log
  end.

Definition Stop (s : Server) (log : list (event L))
  : option error * Server * list (event L) :=
  if negb (started s) then
    (Some (ErrNew "server not started yet"), s, log)
  else
    (None, s, stopEach (grpcServers s) log).

End Transport.

(** Readings of a log. *)
Definition listenErrors {L : Type} (log : list (event L)) : list error :=
  omap (fun ev => match ev with EvListenPipe _ (inr e) => Some e | _ => None end) log.

Definition listenersCreated {L : Type} (log : list (event L)) : list L :=
  omap (fun ev => match ev with EvListenPipe _ (inl l) => Some l | _ => None end) log.

Definition listenersClosed {L : Type} (log : list (event L)) : list L :=
  omap (fun ev => match ev with EvListenerClose l => Some l | _ => None end) log.

Definition pipesTried {L : Type} (log : list (event L)) : list string :=
  omap (fun ev => match ev with EvListenPipe p _ => Some p | _ => None end) log.

Definition serveLoops {L : Type} (log : list (event L)) : list nat :=
  omap (fun ev => match ev with EvGoServe i _ => Some i | _ => None end) log.

(** A transport on which the pipe of group "disk" cannot be created. *)
Definition samplePipePath (group version : string) : string :=
  group +:+ "-" +:+ version.

Definition sampleListenPipe (pipePath : string) (log : list (event string))
  : result string :=
  if bool_decide (pipePath = "disk-v1")
  then inr (ErrNew "open pipe: access is denied")
  else inl pipePath.

Definition sampleServer : Server :=
  {| versionedAPIs := [ {| Group := "disk"; Version := "v1" |};
                        {| Group := "smb"; Version := "v1" |} ];
     started := false;
     grpcServers := [] |}.

(** ** waitForGRPCServersToStop *)

(** What a serve loop sends on [doneChan]. *)
Record versionedAPIDone : Type := {
  index : nat;
  err : option error;
}.

(** How [waitForGRPCServersToStop] ends: it returns the errors, it waits
    for ever on a channel on which nothing more arrives, or it panics (on
    an event whose index is no endpoint, or on the error of [Stop]). *)
Inductive wait_outcome (L : Type) : Type :=
| WaitReturned (errs : list error) (s : Server) (log : list (event L))
| WaitBlocked
| WaitPanicked.
Arguments WaitReturned {L}.
Arguments WaitBlocked {L}.
Arguments WaitPanicked {L}.

(** The closure [processServerDoneEvent]: [None] is the panic of
    [s.versionedAPIs[event.index]] out of range. *)
Definition processServerDoneEvent (s : Server) (errs : list error)
    (event : versionedAPIDone) : option (list error) :=
  match err event with
  | Some e =>
    match versionedAPIs s !! index event with
    | Some versionedAPI =>
      Some (errs ++ [ErrWrap "GRPC server for API group %s version %s failed" e])
    | None => None
    end
  | None => Some errs
  end.

(** The loop [for doneCount := 1; doneCount < len(s.versionedAPIs); ...]
    with [count] iterations left; [arrivals] are the events that arrive on
    [doneChan], in order of arrival. *)
Fixpoint drainDone {L : Type} (s : Server) (count : nat) (errs : list error)
    (arrivals : list versionedAPIDone) (log : list (event L)) : wait_outcome L :=
  match count with
  | O => WaitReturned errs s log
  | S count' =>
    match arrivals with
    | [] => WaitBlocked
    | event :: rest =>
      match processServerDoneEvent s errs event with
      | None => WaitPanicked
      | Some errs' => drainDone s count' errs' rest log
      end
    end
  end.

Definition waitForGRPCServersToStop {L : Type} (s : Server)
    (arrivals : list versionedAPIDone) (log : list (event L)) : wait_outcome L :=
  match arrivals with
  | [] => WaitBlocked
  | event :: rest =>
    match processServerDoneEvent s [] event with
    | None => WaitPanicked
    | Some errs =>
      let '(stopErr, s1, log1) := Stop s log in
      match stopErr with
      | Some _ => WaitPanicked
      | None => drainDone s1 (length (versionedAPIs s1) - 1) errs rest log1
      end
    end
  end.

(** The errors of the events, wrapped as [processServerDoneEvent] does. *)
Definition doneErrors (events : list versionedAPIDone) : list error :=
  omap (fun event =>
          match err event with
          | Some e => Some (ErrWrap "GRPC server for API group %s version %s failed" e)
          | None => None
          end) events.

(** The events of a start in which every pipe was created: the pipes in
    order, then for every endpoint its server, its registration and its
    serve loop on its own listener, then the closing of the channel. *)
Definition serveEvents {L : Type} (i : nat) (listeners : list (option L))
  : list (event L) :=
  [EvNewServer i; EvRegistrant i; EvGoServe i (mjoin (listeners !! i))].

Definition startedLog {L : Type} (paths : list string) (created : list L)
    (listeningChan : bool) : list (event L) :=
  zip_with (fun p l => EvListenPipe p (inl l)) paths created
  ++ flat_map (fun i => serveEvents i (Some <$> created)) (seq 0 (length created))
  ++ (if listeningChan then [EvCloseListeningChan] else []).

(** A transport on which every pipe can be created. *)
Definition openListenPipe (pipePath : string) (log : list (event string)) : result string :=
  inl pipePath.

(** A started server with two endpoints and their GRPC servers. *)
Definition servingServer : Server :=
  {| versionedAPIs := versionedAPIs sampleServer; started := true;
     grpcServers := [Some 0; Some 1] |}.

End Server.

(** * pkg/system/hostapi/hostapi.go *)
Module SystemHostAPI.
Import Cim.

Record ServiceInfo : Type := {
  DisplayName : string;
  StartType : string;
  Status : string;
}.

(** The calls into the WMI library: instances of type [I], the BIOS
    element wrapper [B] and the service wrapper [S]. *)
Record CimV2 (I B S : Type) : Type := {
  QueryInstances : string -> WmiQuery -> list I * option error;
  NewCIM_BIOSElementEx1 : I -> result B;
  GetPropertySerialNumber : B -> result string;
  NewWin32_ServiceEx1 : I -> result S;
  GetPropertyDisplayName : S -> result string;
  GetPropertyState : S -> result string;
  GetPropertyStartMode : S -> result string;
}.
Arguments QueryInstances {I B S}.
Arguments NewCIM_BIOSElementEx1 {I B S}.
Arguments GetPropertySerialNumber {I B S}.
Arguments NewWin32_ServiceEx1 {I B S}.
Arguments GetPropertyDisplayName {I B S}.
Arguments GetPropertyState {I B S}.
Arguments GetPropertyStartMode {I B S}.

Section HostAPI.
Context {I B S : Type} (lib : CimV2 I B S).

Definition GetBIOSSerialNumber : outcome (result string) :=
  let biosQuery := NewWmiQueryWithSelectList "CIM_BIOSElement" ["SerialNumber"] [] in
  let '(instances, err) := QueryInstances lib "" biosQuery in
  match err with
  | Some e => Returned (inr e)
  | None =>
    match index0 instances with
    | Panicked reason => Panicked reason
    | Returned instance =>
      match NewCIM_BIOSElementEx1 lib instance with
      | inr e => Returned (inr (ErrWrap "failed to get BIOS element: %w" e))
      | inl bios =>
        match GetPropertySerialNumber lib bios with
        | inr e => Returned (inr (ErrWrap "failed to get BIOS serial number property: %w" e))
        | inl sn => Returned (inl sn)
        end
      end
    end
  end.

Definition GetService (name : string) : outcome (result ServiceInfo) :=
  let serviceQuery :=
    NewWmiQueryWithSelectList "Win32_Service" ["DisplayName"; "State"; "StartMode"]
      [("Name", name)] in
  let '(instances, err) := QueryInstances lib "" serviceQuery in
  match err with
  | Some e => Returned (inr e)
  | None =>
    match index0 instances with
    | Panicked reason => Panicked reason
    | Returned instance =>
      match NewWin32_ServiceEx1 lib instance with
      | inr e => Returned (inr (ErrWrap "failed to get service %s: %w" e))
      | inl service =>
        match GetPropertyDisplayName lib service with
        | inr e =>
          Returned (inr (ErrWrap "failed to get displayName property of service %s: %w" e))
        | inl displayName =>
          match GetPropertyState lib service with
          | inr e =>
            Returned (inr (ErrWrap "failed to get state property of service %s: %w" e))
          | inl state =>
            match GetPropertyStartMode lib service with
            | inr e =>
              Returned (inr (ErrWrap "failed to get startMode property of service %s: %w" e))
            | inl startMode =>
              Returned (inl {| DisplayName := displayName; StartType := startMode;
                               Status := state |})
            end
          end
        end
      end
    end
  end.

End HostAPI.

(** The underlying error of an error: what is left when the wrappers are
    taken off. *)
Fixpoint cause (e : error) : error :=
  match e with
  | ErrWrap _ inner => cause inner
  | _ => e
  end.

(** A library on which queries find nothing and report no error, and one
    with a service whose state cannot be read. *)
Definition emptyLib : CimV2 unit unit unit := {|
  QueryInstances ns q := ([], None);
  NewCIM_BIOSElementEx1 inst := inl tt;
  GetPropertySerialNumber bios := inl "SN";
  NewWin32_ServiceEx1 inst := inl tt;
  GetPropertyDisplayName svc := inl "Service";
  GetPropertyState svc := inl "Running";
  GetPropertyStartMode svc := inl "Auto";
|}.

Definition unreadableLib : CimV2 unit unit unit := {|
  QueryInstances ns q := ([tt], None);
  NewCIM_BIOSElementEx1 inst := inl tt;
  GetPropertySerialNumber bios := inr (ErrNew "access denied");
  NewWin32_ServiceEx1 inst := inl tt;
  GetPropertyDisplayName svc := inl "Service";
  GetPropertyState svc := inr (ErrNew "access denied");
  GetPropertyStartMode svc := inl "Auto";
|}.

End SystemHostAPI.

(** * Properties of the lifecycle controller *)
Module SystemProps.
Import System.

Section LoopFacts.
Context {H : Type} (host : ServiceHost H).

Lemma loop_mono (n m : nat) (st : loop_state) (r : list string * option error) :
  loop host n st = Some r -> n <= m -> loop host m st = Some r.
Proof.
  revert m st. induction n as [|n IH]; intros m st Hn Hle; [discriminate|].
  destruct m as [|m]; [lia|]. simpl in *.
  destruct (loop_body host st); [|exact Hn].
  apply IH; [exact Hn | lia].
Qed.

Lemma GetDependentsForService_mono (n m : nat) (name : string)
    (r : list string * option error) :
  GetDependentsForService host n name = Some r -> n <= m ->
  GetDependentsForService host m name = Some r.
Proof.
  unfold GetDependentsForService. destruct (GetService host name); [|tauto].
  apply loop_mono.
Qed.

(** A call has at most one result. *)
Lemma Returns_functional (name : string) (r1 r2 : list string * option error) :
  Returns host name r1 -> Returns host name r2 -> r1 = r2.
Proof.
  intros [n1 H1] [n2 H2].
  apply (GetDependentsForService_mono _ (n1 `max` n2)) in H1; [|lia].
  apply (GetDependentsForService_mono _ (n1 `max` n2)) in H2; [|lia].
  congruence.
Qed.



End LoopFacts.

(** ** GetDependentsForService on concrete graphs *)

(** C1.  The visited map [servicesByName] is written and never read.  On
    the diamond (B and C depend on A, D depends on B and on C, all running)
    the call returns D twice, and no run returns a list without
    repetition. *)
Theorem GetDependentsForService_diamond_repeats :
  Returns (tableHost diamond) "A" (["D"; "D"; "C"; "B"; "A"], None) /\
  forall r, Returns (tableHost diamond) "A" r -> ~ NoDup r.1.
Proof.
  assert (Hret : Returns (tableHost diamond) "A" (["D"; "D"; "C"; "B"; "A"], None)).
  { exists 6. vm_compute. reflexivity. }
  split; [exact Hret|].
  intros r Hr. rewrite (Returns_functional _ _ _ _ Hr Hret). cbn.
  intros Hnd. apply NoDup_cons in Hnd as [Hnotin _]. apply Hnotin. left.
Qed.

Lemma cycle_step (st : loop_state) :
  cycle_inv st ->
  exists st', loop_body (tableHost cycle) st = Continue st' /\ cycle_inv st'.
Proof.
  intros [Hlen Hall].
  destruct (lookup_lt_is_Some_2 (servicesToCheck st) (i st)) as [h Hh]; [lia|].
  assert (Hab : h = "A" \/ h = "B").
  { exact (Forall_lookup_1 _ _ _ _ Hall Hh). }
  unfold loop_body. rewrite Hh.
  destruct Hab as [-> | ->]; cbn; eexists; (split; [reflexivity|]).
  all: unfold cycle_inv; cbn; rewrite length_app; cbn; split; [lia|].
  all: apply Forall_app; split; [exact Hall|]; apply Forall_singleton; auto.
Qed.

Lemma cycle_loop_never_returns (fuel : nat) (st : loop_state) :
  cycle_inv st -> loop (tableHost cycle) fuel st = None.
Proof.
  revert st. induction fuel as [|fuel IH]; intros st Hinv; [reflexivity|].
  simpl. destruct (cycle_step st Hinv) as (st' & -> & Hinv'). exact (IH st' Hinv').
Qed.

(** C2.  On two running services that are each other's dependents the
    loop never exits: whatever the number of iterations allowed, the call
    has not returned. *)
Theorem GetDependentsForService_cycle_never_returns :
  forall fuel : nat, GetDependentsForService (tableHost cycle) fuel "A" = None.
Proof.
  intros fuel. unfold GetDependentsForService. cbn.
  apply cycle_loop_never_returns. split; cbn; [reflexivity|]. repeat constructor; auto.
Qed.

(** ** WaitUntilServiceState *)

Section WaitFacts.
Context {H W : Type}.
Implicit Types (stateCheck : stateCheckFunc H W).

Lemma poll_transitions stateCheck (ticks : nat) (w : W) :
  transitions (calls (poll stateCheck ticks w)) = 0.
Proof.
  revert w. induction ticks as [|ticks IH]; intros w; simpl.
  - destruct (stateCheck w) as [r w1]. reflexivity.
  - destruct (stateCheck w) as [r w1].
    destruct (err r); [reflexivity|]. destruct (done r); [reflexivity|].
    exact (IH w1).
Qed.

Lemma poll_pending stateCheck (n : nat) (w w' : W) :
  afterPending stateCheck n w = Some w' ->
  let res := poll stateCheck n w in
  ret_state res = state (stateCheck w').1 /\
  ret_err res = Some Timedout /\
  world res = (stateCheck w').2 /\
  checks (calls res) = S n /\
  exists pre, calls res = pre ++ [RecvTimeout; check_call (stateCheck w').1] /\
              RecvTimeout ∉ pre.
Proof.
  revert w. induction n as [|n IH]; intros w Hp; simpl in *.
  - injection Hp as <-. destruct (stateCheck w) as [r w1]. simpl.
    repeat split. exists []. split; [reflexivity|]. apply not_elem_of_nil.
  - destruct (stateCheck w) as [r w1]. destruct (err r); [discriminate|].
    destruct (done r); [discriminate|].
    destruct (IH w1 Hp) as (Hs & He & Hw & Hc & pre & Hpre & Hnot). simpl.
    repeat split; try assumption.
    + unfold checks in *. simpl. rewrite Hc. reflexivity.
    + exists (RecvTicker :: check_call r :: pre). split; [rewrite Hpre; reflexivity|].
      intros Hin. apply elem_of_cons in Hin as [Hin|Hin]; [discriminate|].
      apply elem_of_cons in Hin as [Hin|Hin]; [discriminate|]. exact (Hnot Hin).
Qed.

Lemma poll_check_error stateCheck (j ticks : nat) (w w' : W) (e : error) :
  j < ticks ->
  afterPending stateCheck j w = Some w' ->
  err (stateCheck w').1 = Some e ->
  let res := poll stateCheck ticks w in
  ret_state res = state (stateCheck w').1 /\
  ret_err res = Some (ErrWrap "check failed: %w" e) /\
  RecvTimeout ∉ calls res.
Proof.
  revert ticks w. induction j as [|j IH]; intros ticks w Hlt Hp He;
    (destruct ticks as [|ticks]; [lia|]); simpl in *.
  - injection Hp as <-. destruct (stateCheck w) as [r w1]. simpl in *. rewrite He. simpl.
    repeat split. intros Hin.
    apply elem_of_cons in Hin as [Hin|Hin]; [discriminate|].
    apply elem_of_cons in Hin as [Hin|Hin]; [discriminate|].
    apply elem_of_nil in Hin. exact Hin.
  - destruct (stateCheck w) as [r w1]. destruct (err r); [discriminate|].
    destruct (done r); [discriminate|].
    destruct (IH ticks w1 ltac:(lia) Hp He) as (Hs & Hr & Hnot). simpl.
    repeat split; try assumption. intros Hin.
    apply elem_of_cons in Hin as [Hin|Hin]; [discriminate|].
    apply elem_of_cons in Hin as [Hin|Hin]; [discriminate|]. exact (Hnot Hin).
Qed.

End WaitFacts.

(** C5.  In every run of [WaitUntilServiceState] the transition function
    is called at most once, and not at all when the first check reports
    done or returns an error. *)
Theorem WaitUntilServiceState_transition_at_most_once :
  forall (H W : Type) (stateTransition : stateTransitionFunc H W)
         (stateCheck : stateCheckFunc H W) (ticks : nat) (w : W),
    let res := WaitUntilServiceState stateTransition stateCheck ticks w in
    transitions (calls res) <= 1 /\
    (done (stateCheck w).1 = true \/ err (stateCheck w).1 <> None ->
     transitions (calls res) = 0).
Proof.
  intros H W stateTransition stateCheck ticks w. unfold WaitUntilServiceState.
  destruct (stateCheck w) as [r w1]. simpl.
  destruct (err r) as [e|] eqn:He;
    [simpl; split; [unfold transitions; simpl; lia | reflexivity]|].
  destruct (done r) eqn:Hd;
    [simpl; split; [unfold transitions; simpl; lia | reflexivity]|].
  destruct (stateTransition (service r) w1) as [[e|] w2]; simpl.
  - split; [unfold transitions; simpl; lia|]. intros [?|?]; [discriminate|congruence].
  - pose proof (poll_transitions stateCheck ticks w2) as Hp. unfold transitions in *.
    simpl. rewrite Hp. split; [lia|]. intros [?|?]; [discriminate|congruence].
Qed.

Lemma WaitUntilServiceState_transition_at_most_once_witness :
  transitions (calls (WaitUntilServiceState acceptTransition runningCheck 3 0)) = 0.
Proof.
  apply (WaitUntilServiceState_transition_at_most_once string nat
           acceptTransition runningCheck 3 0).
  left. reflexivity.
Defined.

(** C6.  Let the first check report not done without error and the
    transition succeed.  If the [ticks] polls before the timeout all report
    not done without error, one more check is made after the timeout is
    received, and its state is returned with the [Timedout] error.  If
    instead a poll fails with [e], its state is returned at once with [e]
    wrapped as a check failure, which is not [Timedout], and the timeout is
    never received. *)
Theorem WaitUntilServiceState_timeout :
  forall (H W : Type) (stateTransition : stateTransitionFunc H W)
         (stateCheck : stateCheckFunc H W) (ticks : nat) (w w1 w2 : W)
         (r0 : check_result H),
    stateCheck w = (r0, w1) -> err r0 = None -> done r0 = false ->
    stateTransition (service r0) w1 = (None, w2) ->
    let res := WaitUntilServiceState stateTransition stateCheck ticks w in
    (forall w3, afterPending stateCheck ticks w2 = Some w3 ->
       ret_state res = state (stateCheck w3).1 /\
       ret_err res = Some Timedout /\
       world res = (stateCheck w3).2 /\
       checks (calls res) = ticks + 2 /\
       exists pre, calls res = pre ++ [RecvTimeout; check_call (stateCheck w3).1] /\
                   RecvTimeout ∉ pre)
    /\ (forall j w3 e, j < ticks -> afterPending stateCheck j w2 = Some w3 ->
       err (stateCheck w3).1 = Some e ->
       ret_state res = state (stateCheck w3).1 /\
       ret_err res = Some (ErrWrap "check failed: %w" e) /\
       ret_err res <> Some Timedout /\
       RecvTimeout ∉ calls res).
Proof.
  intros H W stateTransition stateCheck ticks w w1 w2 r0 Hck He Hd Htr.
  unfold WaitUntilServiceState. rewrite Hck, He, Hd, Htr. simpl. split.
  - intros w3 Hp.
    destruct (poll_pending stateCheck ticks w2 w3 Hp)
      as (Hs & Hr & Hw & Hc & pre & Hpre & Hnot).
    repeat split; try assumption.
    + unfold checks in *. simpl. rewrite Hc. lia.
    + exists (check_call r0 :: CallTransition None :: pre).
      split; [rewrite Hpre; reflexivity|].
      intros Hin. apply elem_of_cons in Hin as [Hin|Hin]; [discriminate|].
      apply elem_of_cons in Hin as [Hin|Hin]; [discriminate|]. exact (Hnot Hin).
  - intros j w3 e Hlt Hp Herr.
    destruct (poll_check_error stateCheck j ticks w2 w3 e Hlt Hp Herr) as (Hs & Hr & Hnot).
    repeat split; try assumption.
    + rewrite Hr. discriminate.
    + intros Hin. apply elem_of_cons in Hin as [Hin|Hin]; [discriminate|].
      apply elem_of_cons in Hin as [Hin|Hin]; [discriminate|]. exact (Hnot Hin).
Qed.

Lemma WaitUntilServiceState_timeout_witness :
  (let res := WaitUntilServiceState acceptTransition neverRunningCheck 2 0 in
   ret_state res = "Stopped" /\ ret_err res = Some Timedout /\ checks (calls res) = 4)
  /\ (let res := WaitUntilServiceState acceptTransition failingCheck 5 0 in
      ret_state res = "Start Pending" /\
      ret_err res = Some (ErrWrap "check failed: %w" (ErrNew "wmi failure"))).
Proof.
  split.
  - destruct (proj1 (WaitUntilServiceState_timeout string nat acceptTransition
                       neverRunningCheck 2 0 1 1 _ eq_refl eq_refl eq_refl eq_refl)
                    3 eq_refl) as (Hs & He & _ & Hc & _).
    exact (conj Hs (conj He Hc)).
  - destruct (proj2 (WaitUntilServiceState_timeout string nat acceptTransition
                       failingCheck 5 0 1 1 _ eq_refl eq_refl eq_refl eq_refl)
                    1 2 (ErrNew "wmi failure") ltac:(lia) eq_refl eq_refl) as (Hs & He & _).
    exact (conj Hs He).
Defined.

(** ** The traversal: what it reaches, in which order, and when it returns *)

Section TraversalFacts.
Context {H : Type} (host : ServiceHost H).

(** What the loop body does, in terms of [runningName] and [expands]. *)
Lemma loop_body_cases (st : loop_state) :
  match loop_body host st with
  | Return names e =>
      (servicesToCheck st !! i st = None /\ names = serviceNames st /\ e = None)
      \/ (exists h err, servicesToCheck st !! i st = Some h /\ e = Some err /\
            ((names = serviceNames st /\ runningName host h = None) \/
             exists n, runningName host h = Some n /\ names = n :: serviceNames st))
  | Continue st' =>
      exists h, servicesToCheck st !! i st = Some h /\
        i st' = S (i st) /\
        servicesToCheck st' = servicesToCheck st ++ expands host h /\
        serviceNames st' =
          match runningName host h with
          | Some n => n :: serviceNames st
          | None => serviceNames st
          end
  end.
Proof.
  unfold loop_body.
  destruct (servicesToCheck st !! i st) as [h|] eqn:Hq; [|left; auto].
  destruct (GetPropertyName host h) as [name|e1] eqn:Hname.
  2:{ right. exists h, e1. repeat split. left. split; [reflexivity|].
      unfold runningName. rewrite Hname. reflexivity. }
  destruct (GetPropertyState host h) as [state|e2] eqn:Hstate.
  2:{ right. exists h, e2. repeat split. left. split; [reflexivity|].
      unfold runningName. rewrite Hname, Hstate. reflexivity. }
  destruct (decide (state = serviceStateRunning)) as [Hrun|Hrun].
  - assert (Hrn : runningName host h = Some name).
    { unfold runningName. rewrite Hname, Hstate.
      rewrite bool_decide_eq_true_2 by exact Hrun. reflexivity. }
    rewrite bool_decide_eq_false_2 by (intros Hne; exact (Hne Hrun)).
    destruct (GetDependents host h) as [deps|e3] eqn:Hdeps.
    + exists h. unfold expands. rewrite Hrn, Hdeps. simpl.
      repeat split; try reflexivity. lia.
    + right. exists h, e3. repeat split. right. exists name. split; [exact Hrn|reflexivity].
  - assert (Hrn : runningName host h = None).
    { unfold runningName. rewrite Hname, Hstate.
      rewrite bool_decide_eq_false_2 by exact Hrun. reflexivity. }
    rewrite bool_decide_eq_true_2 by exact Hrun.
    exists h. unfold expands. rewrite Hrn. simpl. rewrite app_nil_r.
    repeat split; try reflexivity. lia.
Qed.

Lemma take_S_lookup {A : Type} (l : list A) (n : nat) (x : A) :
  l !! n = Some x -> take (S n) l = take n l ++ [x].
Proof. intros Hl. apply take_S_r. exact Hl. Qed.

Lemma traversal_inv_init (root : H) :
  traversal_inv host root
    {| serviceNames := []; servicesToCheck := [root]; servicesByName := ∅; i := 0 |}.
Proof.
  split; simpl.
  - lia.
  - reflexivity.
  - reflexivity.
  - apply Forall_singleton. constructor.
  - intros q1 h q2 d _ Hlt. lia.
Qed.

Lemma traversal_inv_step (root : H) (st st' : loop_state) :
  traversal_inv host root st -> loop_body host st = Continue st' ->
  traversal_inv host root st'.
Proof.
  intros [Hi Hn Hq Hr Hl] Hb. pose proof (loop_body_cases st) as Hc. rewrite Hb in Hc.
  destruct Hc as (h & Hh & Hi' & Hq' & Hn').
  assert (Hlt : i st < length (servicesToCheck st)) by (eapply lookup_lt_Some; eauto).
  assert (Htake : take (S (i st)) (servicesToCheck st ++ expands host h)
                  = take (i st) (servicesToCheck st) ++ [h]).
  { rewrite take_app_le by lia. apply take_S_r. exact Hh. }
  split.
  - rewrite Hi', Hq', length_app. lia.
  - rewrite Hi', Hq', Htake, Hn', omap_app, rev_app_distr. simpl.
    destruct (runningName host h); simpl; rewrite <- Hn; reflexivity.
  - rewrite Hi', Hq', Htake, flat_map_app. simpl. rewrite app_nil_r.
    rewrite Hq at 1. simpl. reflexivity.
  - rewrite Hq'. apply Forall_app. split; [exact Hr|].
    apply Forall_forall. intros d Hd. apply (reached_dependent host root h d); [|exact Hd].
    exact (Forall_lookup_1 _ _ _ _ Hr Hh).
  - intros q1 h0 q2 d Hdec Hlen Hd. rewrite Hi' in Hlen. rewrite Hq' in Hdec.
    pose proof (take_drop_middle _ _ _ Hh) as Hmid.
    destruct (decide (length q1 = i st)) as [Heq|Hne].
    + (* the element just processed *)
      rewrite <- Hmid, <- app_assoc in Hdec. simpl in Hdec.
      apply app_inj_1 in Hdec as [_ Hdec]; [|rewrite length_take; lia].
      injection Hdec as <- <-. apply elem_of_app. right. exact Hd.
    + (* an element processed earlier *)
      assert (Hlen' : length q1 < i st) by lia.
      assert (Hold : servicesToCheck st
                     = q1 ++ h0 :: take (length (servicesToCheck st) - S (length q1)) q2).
      { apply (f_equal (take (length (servicesToCheck st)))) in Hdec.
        rewrite take_app_length in Hdec.
        remember (length (servicesToCheck st)) as n eqn:Hn0.
        rewrite Hdec, take_app, take_ge by lia.
        replace (n - length q1) with (S (n - S (length q1))) by lia.
        reflexivity. }
      specialize (Hl _ _ _ d Hold Hlen' Hd).
      apply elem_of_take in Hl as (k & Hk & _). exact (list_elem_of_lookup_2 _ _ _ Hk).
Qed.

End TraversalFacts.

Section TraversalRun.
Context {H : Type} (host : ServiceHost H).

Lemma loop_final (root : H) (fuel : nat) (st : loop_state)
    (r : list string * option error) :
  traversal_inv host root st -> loop host fuel st = Some r ->
  exists st', traversal_inv host root st' /\ loop_body host st' = Return r.1 r.2.
Proof.
  revert st. induction fuel as [|fuel IH]; intros st Hinv Hl; [discriminate|].
  simpl in Hl. destruct (loop_body host st) as [st1|names e] eqn:Hb.
  - apply (IH st1); [|exact Hl]. exact (traversal_inv_step host root st st1 Hinv Hb).
  - injection Hl as <-. exists st. split; [exact Hinv|exact Hb].
Qed.

(** At a return without error the whole queue has been processed. *)
Lemma loop_final_ok (root : H) (fuel : nat) (st : loop_state) (names : list string) :
  traversal_inv host root st -> loop host fuel st = Some (names, None) ->
  exists queue,
    names = rev (omap (runningName host) queue)
    /\ queue = root :: flat_map (expands host) queue
    /\ Forall (reached host root) queue
    /\ (forall q1 h q2 d, queue = q1 ++ h :: q2 -> d ∈ expands host h -> d ∈ q2).
Proof.
  intros Hinv Hl. destruct (loop_final root fuel st _ Hinv Hl) as (st' & [Hi Hn Hq Hr Hlater] & Hb).
  pose proof (loop_body_cases host st') as Hc. rewrite Hb in Hc. simpl in Hc.
  destruct Hc as [(Hnone & Hnames & _) | (h & err & _ & Herr & _)]; [|discriminate].
  apply lookup_ge_None in Hnone.
  assert (Hfull : take (i st') (servicesToCheck st') = servicesToCheck st').
  { apply take_ge. lia. }
  rewrite Hfull in Hn, Hq. exists (servicesToCheck st'). repeat split.
  - rewrite Hnames. exact Hn.
  - exact Hq.
  - exact Hr.
  - intros q1 h q2 d Hdec Hd. apply (Hlater q1 h q2 d Hdec); [|exact Hd].
    rewrite Hdec, length_app in Hnone. simpl in Hnone.
    rewrite Hdec, length_app in Hi. simpl in Hi. lia.
Qed.

Lemma reached_of_idle_root (root h : H) :
  runningName host root = None -> reached host root h -> h = root.
Proof.
  intros Hroot Hr. induction Hr as [|h d Hr IH Hd]; [reflexivity|].
  subst h. unfold expands in Hd. rewrite Hroot in Hd. apply elem_of_nil in Hd. destruct Hd.
Qed.

Lemma omap_idle (root : H) (l : list H) :
  runningName host root = None -> Forall (reached host root) l ->
  omap (runningName host) l = [].
Proof.
  intros Hroot Hr. induction Hr as [|h l Hh Hl IH]; [reflexivity|].
  simpl. rewrite (reached_of_idle_root root h Hroot Hh), Hroot. exact IH.
Qed.

Lemma last_rev_head {A : Type} (l : list A) : last (rev l) = head l.
Proof. destruct l as [|x l]; [reflexivity|]. simpl. apply last_snoc. Qed.

Lemma last_recorded (root : H) (queue : list H) (k : nat) :
  queue !! 0 = Some root ->
  Forall (reached host root) queue ->
  0 < k ->
  last (rev (omap (runningName host) (take k queue))) = runningName host root.
Proof.
  intros Hq Hr Hk. rewrite last_rev_head.
  destruct queue as [|x tl]; [discriminate|].
  injection Hq as ->. destruct k as [|k]; [lia|].
  destruct (runningName host root) as [n|] eqn:Hroot.
  - simpl. rewrite Hroot. reflexivity.
  - rewrite (omap_idle root _ Hroot); [reflexivity|].
    apply Forall_take. exact Hr.
Qed.

Lemma sum_list_app (l1 l2 : list nat) :
  sum_list (l1 ++ l2) = sum_list l1 + sum_list l2.
Proof. induction l1 as [|x l1 IH]; simpl; [reflexivity|]. rewrite IH. lia. Qed.

Lemma loop_returns_within (fuel : nat) (st : loop_state) (sizes : list nat) :
  Forall2 (fun h n => exists depth, treeSize host depth h = Some n)
    (drop (i st) (servicesToCheck st)) sizes ->
  sum_list sizes < fuel ->
  exists r, loop host fuel st = Some r.
Proof.
  revert st sizes. induction fuel as [|fuel IH]; intros st sizes Hsz Hlt; [lia|].
  simpl. pose proof (loop_body_cases host st) as Hc.
  destruct (loop_body host st) as [st'|names e]; [|eexists; reflexivity].
  destruct Hc as (h & Hh & Hi' & Hq' & _).
  assert (Hlen : i st < length (servicesToCheck st)) by (eapply lookup_lt_Some; eauto).
  rewrite (drop_S _ _ _ Hh) in Hsz.
  apply Forall2_cons_inv_l in Hsz as (n & ns & [depth Hn] & Hrest & ->).
  destruct depth as [|depth]; [discriminate|]. simpl in Hn.
  destruct (mapM (treeSize host depth) (expands host h)) as [szs|] eqn:Hm; [|discriminate].
  simpl in Hn. injection Hn as <-.
  apply (IH st' (ns ++ szs)).
  - rewrite Hi', Hq', drop_app_le by lia. apply Forall2_app; [exact Hrest|].
    apply mapM_Some_1 in Hm. eapply Forall2_impl; [exact Hm|]. intros x y Hxy. exists depth. exact Hxy.
  - rewrite sum_list_app. simpl in Hlt. lia.
Qed.

End TraversalRun.

Lemma elem_of_rev {A : Type} (x : A) (l : list A) : x ∈ rev l <-> x ∈ l.
Proof. rewrite !list_elem_of_In. symmetry. apply in_rev. Qed.

(** X2.  When [GetDependentsForService] returns without error, a name is on
    the list exactly when a running service of that name is reachable from
    the root along dependents of running services. *)
Theorem GetDependentsForService_records_reachable_running :
  forall (H : Type) (host : ServiceHost H) (fuel : nat) (name : string) (root : H)
         (names : list string),
    GetService host name = inl root ->
    GetDependentsForService host fuel name = Some (names, None) ->
    forall n, n ∈ names <->
      exists h, reached host root h /\ runningName host h = Some n.
Proof.
  intros H host fuel name root names Hroot Hrun. unfold GetDependentsForService in Hrun.
  rewrite Hroot in Hrun.
  destruct (loop_final_ok host root fuel _ names (traversal_inv_init host root) Hrun)
    as (queue & -> & Hq & Hr & _).
  assert (Hall : forall h, reached host root h -> h ∈ queue).
  { intros h Hh. induction Hh as [|h d Hh IH Hd].
    - rewrite Hq. left.
    - rewrite Hq. right. apply list_elem_of_In, in_flat_map. exists h.
      split; apply list_elem_of_In; assumption. }
  intros n. rewrite elem_of_rev, list_elem_of_omap. split.
  - intros (h & Hh & Hn). exists h. split; [|exact Hn].
    exact (proj1 (Forall_forall _ _) Hr h Hh).
  - intros (h & Hh & Hn). exists h. split; [exact (Hall h Hh)|exact Hn].
Qed.

Lemma GetDependentsForService_records_reachable_running_witness :
  "D" ∈ ["D"; "D"; "C"; "B"; "A"] <->
  exists h, reached (tableHost diamond) "A" h /\ runningName (tableHost diamond) h = Some "D".
Proof.
  apply (GetDependentsForService_records_reachable_running string (tableHost diamond)
           6 "A" "A" ["D"; "D"; "C"; "B"; "A"]); vm_compute; reflexivity.
Defined.

(** X3.  When [GetDependentsForService] returns without error, every running
    dependent of a running reachable service has an occurrence on the list
    before an occurrence of that service. *)
Theorem GetDependentsForService_dependents_first :
  forall (H : Type) (host : ServiceHost H) (fuel : nat) (name : string) (root : H)
         (names : list string) (h d : H) (n m : string),
    GetService host name = inl root ->
    GetDependentsForService host fuel name = Some (names, None) ->
    reached host root h -> runningName host h = Some n ->
    d ∈ expands host h -> runningName host d = Some m ->
    exists l1 l2 l3, names = l1 ++ m :: l2 ++ n :: l3.
Proof.
  intros H host fuel name root names h d n m Hroot Hrun Hh Hn Hd Hm.
  unfold GetDependentsForService in Hrun. rewrite Hroot in Hrun.
  destruct (loop_final_ok host root fuel _ names (traversal_inv_init host root) Hrun)
    as (queue & -> & Hq & Hr & Hlater).
  assert (Hall : forall h, reached host root h -> h ∈ queue).
  { intros h0 Hh0. induction Hh0 as [|h0 d0 Hh0 IH Hd0].
    - rewrite Hq. left.
    - rewrite Hq. right. apply list_elem_of_In, in_flat_map. exists h0.
      split; apply list_elem_of_In; assumption. }
  destruct (list_elem_of_split _ _ (Hall h Hh)) as (q1 & q2 & Hdec).
  destruct (list_elem_of_split _ _ (Hlater q1 h q2 d Hdec Hd)) as (q3 & q4 & ->).
  exists (rev (omap (runningName host) q4)), (rev (omap (runningName host) q3)),
         (rev (omap (runningName host) q1)).
  rewrite Hdec. rewrite omap_app. simpl. rewrite Hn. rewrite omap_app. simpl. rewrite Hm.
  rewrite rev_app_distr. simpl. rewrite rev_app_distr. simpl.
  rewrite <- !app_assoc. simpl. reflexivity.
Qed.

Lemma GetDependentsForService_dependents_first_witness :
  exists l1 l2 l3, ["D"; "D"; "C"; "B"; "A"] = l1 ++ "D" :: l2 ++ "B" :: l3.
Proof.
  apply (GetDependentsForService_dependents_first string (tableHost diamond)
           6 "A" "A" ["D"; "D"; "C"; "B"; "A"] "B" "D" "B" "D").
  - reflexivity.
  - vm_compute. reflexivity.
  - apply (reached_dependent _ "A" "A" "B"); [constructor|]. vm_compute. left.
  - reflexivity.
  - vm_compute. left.
  - reflexivity.
Defined.

(** X4.  Whatever [GetDependentsForService] returns, error or not, the last
    name of the list is the root's own name when the root is running, and
    the list is empty when it is not. *)
Theorem GetDependentsForService_root_last :
  forall (H : Type) (host : ServiceHost H) (fuel : nat) (name : string) (root : H)
         (names : list string) (e : option error),
    GetService host name = inl root ->
    GetDependentsForService host fuel name = Some (names, e) ->
    last names = runningName host root.
Proof.
  intros H host fuel name root names e Hroot Hrun. unfold GetDependentsForService in Hrun.
  rewrite Hroot in Hrun.
  destruct (loop_final host root fuel _ _ (traversal_inv_init host root) Hrun)
    as (st & [Hi Hn Hq Hr Hlater] & Hb).
  simpl in Hb. pose proof (loop_body_cases host st) as Hc. rewrite Hb in Hc.
  assert (Hhead : servicesToCheck st !! 0 = Some root) by (rewrite Hq; reflexivity).
  destruct Hc as [(Hnone & -> & _) | (h & err & Hh & _ & Hcase)].
  - rewrite Hn. apply last_recorded; [exact Hhead|exact Hr|].
    destruct (i st); [congruence|lia].
  - destruct Hcase as [[-> Hidle] | (n & Hn' & ->)].
    + rewrite Hn. destruct (i st) as [|k] eqn:Hk.
      * simpl. rewrite Hhead in Hh. injection Hh as <-. symmetry. exact Hidle.
      * apply last_recorded; [exact Hhead|exact Hr|lia].
    + replace (n :: serviceNames st)
        with (rev (omap (runningName host) (take (S (i st)) (servicesToCheck st)))).
      * apply last_recorded; [exact Hhead|exact Hr|lia].
      * rewrite (take_S_r _ _ _ Hh), omap_app, rev_app_distr. simpl. rewrite Hn'. simpl.
        rewrite Hn. reflexivity.
Qed.

Lemma GetDependentsForService_root_last_witness :
  last ["D"; "D"; "C"; "B"; "A"] = runningName (tableHost diamond) "A"
  /\ last ([] : list string) = runningName (tableHost graph_C_to_D) "C".
Proof.
  split.
  - apply (GetDependentsForService_root_last string (tableHost diamond) 6 "A" "A" _ None);
      vm_compute; reflexivity.
  - apply (GetDependentsForService_root_last string (tableHost graph_C_to_D) 2 "C" "C" _ None);
      vm_compute; reflexivity.
Defined.

(** X1.  When the tree of running dependents below the root is finite, with
    [n] nodes, [GetDependentsForService] returns within [n + 1] evaluations
    of the loop condition. *)
Theorem GetDependentsForService_returns_on_finite_tree :
  forall (H : Type) (host : ServiceHost H) (name : string) (root : H) (depth n : nat),
    GetService host name = inl root ->
    treeSize host depth root = Some n ->
    forall fuel, n < fuel ->
      exists r, GetDependentsForService host fuel name = Some r.
Proof.
  intros H host name root depth n Hroot Hsize fuel Hlt. unfold GetDependentsForService.
  rewrite Hroot. apply (loop_returns_within host fuel _ [n]).
  - simpl. constructor; [exists depth; exact Hsize|constructor].
  - simpl. lia.
Qed.

Lemma GetDependentsForService_returns_on_finite_tree_witness :
  exists r, GetDependentsForService (tableHost diamond) 6 "A" = Some r.
Proof.
  apply (GetDependentsForService_returns_on_finite_tree string (tableHost diamond)
           "A" "A" 3 5 eq_refl eq_refl 6). lia.
Defined.

(** ** Skipping the services that are not running *)

Section OrderFacts.
Context {H : Type} (host : ServiceHost H).


End OrderFacts.



(** ** WaitUntilServiceState: the shape of a run *)

Section WaitRun.
Context {H W : Type}.
Implicit Types (stateCheck : stateCheckFunc H W) (stateTransition : stateTransitionFunc H W).

Lemma lastCheck_cons_other (c : call) (l : list call) :
  is_check c = false -> lastCheck (c :: l) = lastCheck l.
Proof. intros Hc. unfold lastCheck. simpl. rewrite Hc. reflexivity. Qed.

Lemma lastCheck_cons_check (d : bool) (s : string) (e : option error) (l : list call) :
  lastCheck (CallCheck d s e :: l) =
    match lastCheck l with Some c => Some c | None => Some (CallCheck d s e) end.
Proof. unfold lastCheck. simpl. apply last_cons. Qed.

Lemma poll_lastCheck stateCheck (ticks : nat) (w : W) :
  let res := poll stateCheck ticks w in
  exists d e, lastCheck (calls res) = Some (CallCheck d (ret_state res) e)
              /\ (ret_err res = None -> d = true /\ e = None).
Proof.
  revert w. induction ticks as [|ticks IH]; intros w; simpl.
  - destruct (stateCheck w) as [r w1]. simpl. exists (done r), (err r).
    split; [reflexivity|discriminate].
  - destruct (stateCheck w) as [r w1]. destruct (err r) as [e|] eqn:He; simpl.
    + exists (done r), (err r). split; [reflexivity|discriminate].
    + destruct (done r) eqn:Hd; simpl.
      * exists true, None. unfold check_call. rewrite Hd, He. split; [reflexivity|auto].
      * destruct (IH w1) as (d & e & Hl & Himp). exists d, e. split; [|exact Himp].
        rewrite lastCheck_cons_other by reflexivity. unfold check_call.
        rewrite lastCheck_cons_check, Hl. reflexivity.
Qed.

Lemma poll_checks_bound stateCheck (ticks : nat) (w : W) :
  1 <= checks (calls (poll stateCheck ticks w)) <= S ticks.
Proof.
  revert w. induction ticks as [|ticks IH]; intros w; simpl.
  - destruct (stateCheck w) as [r w1]. unfold checks. simpl. lia.
  - destruct (stateCheck w) as [r w1]. destruct (err r); [unfold checks; simpl; lia|].
    destruct (done r); [unfold checks; simpl; lia|].
    specialize (IH w1). unfold checks in *. simpl. lia.
Qed.

Lemma poll_done stateCheck (j ticks : nat) (w w' : W) :
  j < ticks ->
  afterPending stateCheck j w = Some w' ->
  err (stateCheck w').1 = None -> done (stateCheck w').1 = true ->
  let res := poll stateCheck ticks w in
  ret_state res = state (stateCheck w').1 /\ ret_err res = None /\
  world res = (stateCheck w').2 /\ checks (calls res) = S j.
Proof.
  revert ticks w. induction j as [|j IH]; intros ticks w Hlt Hp He Hd;
    (destruct ticks as [|ticks]; [lia|]); simpl in *.
  - injection Hp as <-. destruct (stateCheck w) as [r w1]. simpl in *.
    rewrite He, Hd. simpl. repeat split.
  - destruct (stateCheck w) as [r w1]. destruct (err r); [discriminate|].
    destruct (done r); [discriminate|].
    destruct (IH ticks w1 ltac:(lia) Hp He Hd) as (Hs & Hr & Hw & Hc). simpl.
    repeat split; try assumption. unfold checks in *. simpl. rewrite Hc. reflexivity.
Qed.

(** A property of the world that every check keeps is kept by polling. *)
Lemma poll_preserves stateCheck (P : W -> Prop) (ticks : nat) (w : W) :
  (forall w0, P w0 -> P (stateCheck w0).2) ->
  P w -> P (world (poll stateCheck ticks w)).
Proof.
  intros Hck. revert w. induction ticks as [|ticks IH]; intros w Hw; simpl.
  - specialize (Hck w Hw). destruct (stateCheck w) as [r w1]. exact Hck.
  - specialize (Hck w Hw). destruct (stateCheck w) as [r w1]. simpl in Hck.
    destruct (err r); [exact Hck|]. destruct (done r); [exact Hck|].
    simpl. apply IH. exact Hck.
Qed.

End WaitRun.

Lemma wait_lastCheck {H W : Type} (stateTransition : stateTransitionFunc H W)
    (stateCheck : stateCheckFunc H W) (ticks : nat) (w : W) :
  let res := WaitUntilServiceState stateTransition stateCheck ticks w in
  exists d e, lastCheck (calls res) = Some (CallCheck d (ret_state res) e)
              /\ (ret_err res = None -> d = true /\ e = None).
Proof.
  unfold WaitUntilServiceState.
  destruct (stateCheck w) as [r w1]. destruct (err r) as [e|] eqn:He; simpl.
  - exists (done r), (err r). split; [reflexivity|discriminate].
  - destruct (done r) eqn:Hd; simpl.
    + exists true, None. unfold check_call. rewrite Hd, He. split; [reflexivity|auto].
    + destruct (stateTransition (service r) w1) as [[e|] w2]; simpl.
      * exists (done r), (err r). split; [reflexivity|discriminate].
      * destruct (poll_lastCheck stateCheck ticks w2) as (d & e & Hl & Himp).
        exists d, e. split; [|exact Himp]. unfold check_call.
        rewrite lastCheck_cons_check, lastCheck_cons_other by reflexivity.
        rewrite Hl. reflexivity.
Qed.

(** X5.  The state that [WaitUntilServiceState] returns is the state of the
    last check it made; and it returns no error only when that check
    reported done without error. *)
Theorem WaitUntilServiceState_reports_last_check :
  forall (H W : Type) (stateTransition : stateTransitionFunc H W)
         (stateCheck : stateCheckFunc H W) (ticks : nat) (w : W),
    let res := WaitUntilServiceState stateTransition stateCheck ticks w in
    exists d e, lastCheck (calls res) = Some (CallCheck d (ret_state res) e)
                /\ (ret_err res = None -> d = true /\ e = None).
Proof. intros H W stateTransition stateCheck ticks w. apply wait_lastCheck. Qed.

Lemma WaitUntilServiceState_reports_last_check_witness :
  let res := WaitUntilServiceState acceptTransition runningCheck 3 0 in
  exists d e, lastCheck (calls res) = Some (CallCheck d "Running" e)
              /\ (ret_err res = None -> d = true /\ e = None).
Proof.
  apply (WaitUntilServiceState_reports_last_check string nat acceptTransition runningCheck 3 0).
Defined.

(** X6.  [WaitUntilServiceState] makes at least one check and at most
    [ticks + 2], where [ticks] is the number of ticker receives before the
    timeout; it takes the ticker case at most [ticks] times. *)
Theorem WaitUntilServiceState_checks_bound :
  forall (H W : Type) (stateTransition : stateTransitionFunc H W)
         (stateCheck : stateCheckFunc H W) (ticks : nat) (w : W),
    let res := WaitUntilServiceState stateTransition stateCheck ticks w in
    1 <= checks (calls res) <= ticks + 2
    /\ length (List.filter (fun c => bool_decide (c = RecvTicker)) (calls res)) <= ticks.
Proof.
  intros H W stateTransition stateCheck ticks w. unfold WaitUntilServiceState.
  destruct (stateCheck w) as [r w1].
  destruct (err r); [unfold checks; simpl; lia|].
  destruct (done r); [unfold checks; simpl; lia|].
  destruct (stateTransition (service r) w1) as [[e|] w2]; [unfold checks; simpl; lia|].
  pose proof (poll_checks_bound stateCheck ticks w2) as Hb. unfold checks in *. simpl.
  split; [lia|].
  clear Hb. revert w2. induction ticks as [|ticks IH]; intros w2; simpl.
  - destruct (stateCheck w2) as [r2 w3]. simpl. lia.
  - destruct (stateCheck w2) as [r2 w3]. destruct (err r2); [simpl; lia|].
    destruct (done r2); [simpl; lia|]. simpl. specialize (IH w3). lia.
Qed.

(** X7.  If the first check is pending, the transition succeeds, [j] polls
    are pending and the next one, still before the timeout, reports done,
    then [WaitUntilServiceState] returns that state without error after
    [j + 2] checks. *)
Theorem WaitUntilServiceState_poll_success :
  forall (H W : Type) (stateTransition : stateTransitionFunc H W)
         (stateCheck : stateCheckFunc H W) (ticks j : nat) (w w1 w2 w3 : W)
         (r0 : check_result H),
    stateCheck w = (r0, w1) -> err r0 = None -> done r0 = false ->
    stateTransition (service r0) w1 = (None, w2) ->
    j < ticks -> afterPending stateCheck j w2 = Some w3 ->
    err (stateCheck w3).1 = None -> done (stateCheck w3).1 = true ->
    let res := WaitUntilServiceState stateTransition stateCheck ticks w in
    ret_state res = state (stateCheck w3).1 /\ ret_err res = None /\
    world res = (stateCheck w3).2 /\ checks (calls res) = j + 2.
Proof.
  intros H W stateTransition stateCheck ticks j w w1 w2 w3 r0 Hck He Hd Htr Hlt Hp He3 Hd3.
  unfold WaitUntilServiceState. rewrite Hck, He, Hd, Htr. simpl.
  destruct (poll_done stateCheck j ticks w2 w3 Hlt Hp He3 Hd3) as (Hs & Hr & Hw & Hc).
  repeat split; try assumption. unfold checks in *. simpl. rewrite Hc. lia.
Qed.

Lemma WaitUntilServiceState_poll_success_witness :
  let res := WaitUntilServiceState acceptTransition startingCheck 5 0 in
  ret_state res = "Running" /\ ret_err res = None /\ world res = 3 /\ checks (calls res) = 3.
Proof.
  apply (WaitUntilServiceState_poll_success string nat acceptTransition startingCheck
           5 1 0 1 1 2 _ eq_refl eq_refl eq_refl eq_refl); [lia|reflexivity..].
Defined.

(** ** StartService and StopService *)

Section APIFacts.
Context {H W : Type} (ctl : ServiceControl H W).
Variable IsTimedout : error -> bool.

Lemma serviceRunningCheck_done (name : string) (w : W) :
  let r := (serviceRunningCheck ctl name w).1 in
  err r = None -> done r = bool_decide (state r = serviceStateRunning).
Proof.
  unfold serviceRunningCheck. destruct (Factory_GetService ctl name w) as [[service|e] w1];
    [|discriminate].
  destruct (Service_GetPropertyState ctl service w1) as [[state [e|]] w2];
    [discriminate|reflexivity].
Qed.

Lemma serviceStoppedCheck_done (name : string) (w : W * bool) :
  let r := (serviceStoppedCheck ctl name w).1 in
  err r = None -> done r = bool_decide (state r = serviceStateStopped).
Proof.
  unfold serviceStoppedCheck. destruct (Factory_GetService ctl name w.1) as [[service|e] w1];
    [|discriminate].
  destruct (Service_GetPropertyState ctl service w1) as [[state [e|]] w2];
    [discriminate|reflexivity].
Qed.

Lemma serviceStoppedCheck_flag (name : string) (w : W * bool) :
  (serviceStoppedCheck ctl name w).2.2 = w.2.
Proof.
  unfold serviceStoppedCheck. destruct (Factory_GetService ctl name w.1) as [[service|e] w1];
    [|reflexivity].
  destruct (Service_GetPropertyState ctl service w1) as [[state [e|]] w2]; reflexivity.
Qed.

Lemma stopService_flag (service : option H) (w : W * bool) :
  (stopService ctl service w).1 = None -> (stopService ctl service w).2.2 = w.2.
Proof.
  unfold stopService. destruct service as [service|]; [|discriminate].
  destruct (Service_StopService ctl service w.1) as [[retVal e] w1].
  destruct (_ || _); [|reflexivity].
  destruct (bool_decide (retVal = stopServiceErrorCodeDependentRunning)); discriminate.
Qed.

End APIFacts.

(** X8.  [StartService] returns nil only if the last state read was
    "Running". *)
Theorem StartService_success_observed_running :
  forall (H W : Type) (ctl : ServiceControl H W) (IsTimedout : error -> bool)
         (name : string) (ticks : nat) (w w' : W),
    StartService ctl IsTimedout name ticks w = (None, w') ->
    exists d e,
      lastCheck (calls (WaitUntilServiceState (startService ctl)
                          (serviceRunningCheck ctl name) ticks w))
        = Some (CallCheck d serviceStateRunning e).
Proof.
  intros H W ctl IsTimedout name ticks w w'. unfold StartService.
  set (res := WaitUntilServiceState _ _ ticks w).
  destruct (wait_lastCheck (startService ctl) (serviceRunningCheck ctl name) ticks w)
    as (d & e & Hl & _). fold res in Hl.
  assert (Hrun : (if bool_decide (ret_state res <> serviceStateRunning)
                  then Some (ErrNew "timed out waiting for service %s to become running")
                  else None) = None -> ret_state res = serviceStateRunning).
  { case_bool_decide as Hs; [discriminate|]. intros _.
    destruct (decide (ret_state res = serviceStateRunning)); [assumption|tauto]. }
  intros Hres. exists d, e. rewrite Hl. f_equal. f_equal. apply Hrun.
  destruct (ret_err res) as [e0|]; [destruct (negb (IsTimedout e0)); [discriminate|]|];
    injection Hres as Hres _; exact Hres.
Qed.

Lemma StartService_success_observed_running_witness :
  exists d e,
    lastCheck (calls (WaitUntilServiceState (startService (toyControl 0 0))
                        (serviceRunningCheck (toyControl 0 0) "svc") 4 "Stopped"))
      = Some (CallCheck d serviceStateRunning e).
Proof.
  apply (StartService_success_observed_running string string (toyControl 0 0) isTimedout
           "svc" 4 "Stopped" "Running"). reflexivity.
Defined.

(** X9.  When the wait of [StartService] times out, the check made after
    the timeout decides: nil if it read "Running", the timed-out error
    otherwise (given that [IsTimedout] recognises [Timedout]). *)
Theorem StartService_timeout_decided_by_final_check :
  forall (H W : Type) (ctl : ServiceControl H W) (IsTimedout : error -> bool)
         (name : string) (ticks : nat) (w w1 w2 w3 : W) (r0 : check_result H),
    IsTimedout Timedout = true ->
    serviceRunningCheck ctl name w = (r0, w1) -> err r0 = None -> done r0 = false ->
    startService ctl (service r0) w1 = (None, w2) ->
    afterPending (serviceRunningCheck ctl name) ticks w2 = Some w3 ->
    StartService ctl IsTimedout name ticks w =
      (if bool_decide (state (serviceRunningCheck ctl name w3).1 <> serviceStateRunning)
       then Some (ErrNew "timed out waiting for service %s to become running")
       else None,
       (serviceRunningCheck ctl name w3).2).
Proof.
  intros H W ctl IsTimedout name ticks w w1 w2 w3 r0 Htimed Hck He Hd Htr Hp.
  unfold StartService, WaitUntilServiceState. rewrite Hck, He, Hd, Htr. simpl.
  destruct (poll_pending (serviceRunningCheck ctl name) ticks w2 w3 Hp)
    as (Hs & Hr & Hw & _).
  rewrite Hr, Hs, Hw, Htimed. reflexivity.
Qed.

Lemma StartService_timeout_decided_by_final_check_witness :
  StartService (toyControl 0 0) isTimedout "svc" 0 "Stopped" = (None, "Running")
  /\ StartService (toyControl 10 0) isTimedout "svc" 0 "Paused"
     = (Some (ErrNew "timed out waiting for service %s to become running"), "Paused").
Proof.
  split.
  - apply (StartService_timeout_decided_by_final_check string string (toyControl 0 0)
             isTimedout "svc" 0 "Stopped" "Stopped" "Running" "Running" _
             eq_refl eq_refl eq_refl eq_refl eq_refl eq_refl).
  - apply (StartService_timeout_decided_by_final_check string string (toyControl 10 0)
             isTimedout "svc" 0 "Paused" "Paused" "Paused" "Paused" _
             eq_refl eq_refl eq_refl eq_refl eq_refl eq_refl).
Defined.

(** X10.  If the service is found and not running, and the start request
    fails or returns a code other than 0 and 10, [StartService] returns an
    error without polling. *)
Theorem StartService_rejected_request_fails :
  forall (H W : Type) (ctl : ServiceControl H W) (IsTimedout : error -> bool)
         (name : string) (ticks : nat) (w w1 w2 w3 : W) (service : H)
         (state : string) (retVal : N) (err : option error),
    Factory_GetService ctl name w = (inl service, w1) ->
    Service_GetPropertyState ctl service w1 = ((state, None), w2) ->
    state <> serviceStateRunning ->
    Service_StartService ctl service w2 = ((retVal, err), w3) ->
    err <> None \/ (retVal <> 0%N /\ retVal <> 10%N) ->
    exists e, StartService ctl IsTimedout name ticks w = (Some e, w3).
Proof.
  intros H W ctl IsTimedout name ticks w w1 w2 w3 service state retVal err
    Hget Hstate Hne Hstart Hrej.
  unfold StartService, WaitUntilServiceState, serviceRunningCheck.
  rewrite Hget, Hstate. simpl.
  rewrite (bool_decide_eq_false_2 (state = serviceStateRunning)) by exact Hne.
  unfold startService. rewrite Hstart.
  assert (Hcond : bool_decide (err <> None)
                  || (bool_decide (retVal <> startServiceErrorCodeAccepted)
                      && bool_decide (retVal <> startServiceErrorCodeAlreadyRunning)) = true).
  { destruct Hrej as [Herr | [H0 H10]].
    - rewrite (bool_decide_eq_true_2 _ Herr). reflexivity.
    - rewrite (bool_decide_eq_true_2 _ H0), (bool_decide_eq_true_2 _ H10).
      apply orb_true_r. }
  rewrite Hcond. simpl.
  rewrite (bool_decide_eq_true_2 (state <> serviceStateRunning)) by exact Hne.
  destruct (negb (IsTimedout _)); eexists; reflexivity.
Qed.

Lemma StartService_rejected_request_fails_witness :
  exists e, StartService (toyControl 2 0) isTimedout "svc" 7 "Stopped" = (Some e, "Stopped").
Proof.
  apply (StartService_rejected_request_fails string string (toyControl 2 0) isTimedout
           "svc" 7 "Stopped" "Stopped" "Stopped" "Stopped" "svc" "Stopped" 2 None
           eq_refl eq_refl); [discriminate | reflexivity | right; split; discriminate].
Defined.

Lemma stopSingleService_flag_error {H W : Type} (ctl : ServiceControl H W)
    (IsTimedout : error -> bool) (name : string) (ticks : nat) (w w' : W)
    (e : option error) :
  stopSingleService ctl IsTimedout name ticks w = (true, e, w') -> e <> None.
Proof.
  unfold stopSingleService, WaitUntilServiceState.
  pose proof (serviceStoppedCheck_flag ctl name (w, false)) as Hflag.
  pose proof (serviceStoppedCheck_done ctl name (w, false)) as Hdone.
  destruct (serviceStoppedCheck ctl name (w, false)) as [r w1]. simpl in Hflag, Hdone.
  destruct (err r) as [e0|] eqn:He.
  { simpl. rewrite Hflag. destruct (negb (IsTimedout e0)); [discriminate|].
    case_bool_decide; discriminate. }
  specialize (Hdone eq_refl).
  destruct (done r) eqn:Hd.
  { simpl. rewrite Hflag. case_bool_decide; discriminate. }
  assert (Hstate : state r <> serviceStateStopped).
  { intros Heq. symmetry in Hdone. apply bool_decide_eq_false in Hdone. exact (Hdone Heq). }
  pose proof (stopService_flag ctl (service r) w1) as Htr.
  destruct (stopService ctl (service r) w1) as [[e1|] w2]; simpl.
  - rewrite (bool_decide_eq_true_2 _ Hstate).
    destruct (negb (IsTimedout e1)); intros Hres; injection Hres as _ <- _; discriminate.
  - simpl in Htr. specialize (Htr eq_refl).
    assert (Hfinal : (world (poll (serviceStoppedCheck ctl name) ticks w2)).2 = false).
    { apply (poll_preserves (serviceStoppedCheck ctl name) (fun w0 => w0.2 = false)).
      - intros w0 Hw0. rewrite serviceStoppedCheck_flag. exact Hw0.
      - rewrite Htr. exact Hflag. }
    rewrite Hfinal.
    destruct (ret_err _) as [e2|]; [destruct (negb (IsTimedout e2))|]; discriminate.
Qed.

(** X11.  [stopSingleService] reports [dependentRunning] only together with
    an error. *)
Theorem stopSingleService_dependentRunning_is_failure :
  forall (H W : Type) (ctl : ServiceControl H W) (IsTimedout : error -> bool)
         (name : string) (ticks : nat) (w w' : W) (e : option error),
    stopSingleService ctl IsTimedout name ticks w = (true, e, w') -> e <> None.
Proof.
  intros H W ctl IsTimedout name ticks w w' e. apply stopSingleService_flag_error.
Qed.

Lemma stopSingleService_dependentRunning_is_failure_witness :
  Some (ErrNew "error stopping service name %s. current state: %s") <> None.
Proof.
  apply (stopSingleService_dependentRunning_is_failure string string (toyControl 0 3)
           isTimedout "svc" 4 "Running" "Running"). reflexivity.
Defined.

(** X12.  [stopSingleService] returns nil only if the last state read was
    "Stopped", and then [dependentRunning] is false. *)
Theorem stopSingleService_success_observed_stopped :
  forall (H W : Type) (ctl : ServiceControl H W) (IsTimedout : error -> bool)
         (name : string) (ticks : nat) (w w' : W) (dependentRunning : bool),
    stopSingleService ctl IsTimedout name ticks w = (dependentRunning, None, w') ->
    dependentRunning = false /\
    exists d e,
      lastCheck (calls (WaitUntilServiceState (stopService ctl)
                          (serviceStoppedCheck ctl name) ticks (w, false)))
        = Some (CallCheck d serviceStateStopped e).
Proof.
  intros H W ctl IsTimedout name ticks w w' dependentRunning Hres. split.
  { destruct dependentRunning; [|reflexivity]. exfalso.
    exact (stopSingleService_flag_error ctl IsTimedout name ticks w w' None Hres eq_refl). }
  revert Hres. unfold stopSingleService.
  set (res := WaitUntilServiceState _ _ ticks (w, false)).
  destruct (wait_lastCheck (stopService ctl) (serviceStoppedCheck ctl name) ticks (w, false))
    as (d & e & Hl & _). fold res in Hl.
  intros Hres. exists d, e. rewrite Hl. f_equal. f_equal.
  assert (Hnone : (if bool_decide (ret_state res <> serviceStateStopped)
                   then Some (ErrNew "timed out waiting for service %s to stop")
                   else None) = None).
  { destruct (ret_err res) as [e0|]; [destruct (negb (IsTimedout e0)); [discriminate|]|];
      injection Hres as _ Hres _; exact Hres. }
  case_bool_decide as Hs; [discriminate|].
  destruct (decide (ret_state res = serviceStateStopped)); [assumption|tauto].
Qed.

Lemma stopSingleService_success_observed_stopped_witness :
  false = false /\
  exists d e,
    lastCheck (calls (WaitUntilServiceState (stopService (toyControl 0 0))
                        (serviceStoppedCheck (toyControl 0 0) "svc") 4 ("Running", false)))
      = Some (CallCheck d serviceStateStopped e).
Proof.
  apply (stopSingleService_success_observed_stopped string string (toyControl 0 0)
           isTimedout "svc" 4 "Running" "Stopped" false). reflexivity.
Defined.

Section StopFacts.
Context {H : Type} (host : ServiceHost H).

(** A root that answers and is not running: the traversal returns the
    empty list after two evaluations of the loop condition. *)
Lemma GetDependentsForService_idle_root (fuel : nat) (name serviceName state : string)
    (root : H) :
  GetService host name = inl root ->
  GetPropertyName host root = inl serviceName ->
  GetPropertyState host root = inl state ->
  state <> serviceStateRunning ->
  GetDependentsForService host (S (S fuel)) name = Some ([], None).
Proof.
  intros Hroot Hname Hstate Hne. unfold GetDependentsForService. rewrite Hroot.
  simpl. unfold loop_body at 1. simpl. rewrite Hname, Hstate.
  rewrite bool_decide_eq_true_2 by exact Hne. reflexivity.
Qed.

End StopFacts.

(** X13.  If the stop of the service is refused because dependents are
    running, and the traversal then finds the service itself in a state
    other than "Running", [StopService] with force returns nil and stops
    nothing, while without force it returns the error of the stop. *)
Theorem StopService_force_idle_root_reports_success :
  forall (H W : Type) (ctl : ServiceControl H W) (IsTimedout : error -> bool)
         (hostAt : W -> ServiceHost H) (fuel : nat) (name : string)
         (ticks : nat -> nat) (w w1 : W) (e : error) (root : H)
         (serviceName state : string),
    stopSingleService ctl IsTimedout name (ticks 0) w = (true, Some e, w1) ->
    GetService (hostAt w1) name = inl root ->
    GetPropertyName (hostAt w1) root = inl serviceName ->
    GetPropertyState (hostAt w1) root = inl state ->
    state <> serviceStateRunning ->
    2 <= fuel ->
    StopService ctl IsTimedout hostAt fuel name true ticks w = Some (None, w1)
    /\ StopService ctl IsTimedout hostAt fuel name false ticks w = Some (Some e, w1).
Proof.
  intros H W ctl IsTimedout hostAt fuel name ticks w w1 e root serviceName state
    Hstop Hroot Hname Hstate Hne Hfuel.
  unfold StopService. rewrite Hstop. simpl. split; [|reflexivity].
  destruct fuel as [|[|fuel]]; [lia|lia|].
  rewrite (GetDependentsForService_idle_root (hostAt w1) fuel name serviceName state root
             Hroot Hname Hstate Hne).
  reflexivity.
Qed.

Lemma StopService_force_idle_root_reports_success_witness :
  StopService (toyControl 0 3) isTimedout toyHostAt 5 "svc" true (fun _ => 4) "Paused"
    = Some (None, "Paused")
  /\ StopService (toyControl 0 3) isTimedout toyHostAt 5 "svc" false (fun _ => 4) "Paused"
    = Some (Some (ErrNew "error stopping service name %s. current state: %s"), "Paused").
Proof.
  apply (StopService_force_idle_root_reports_success string string (toyControl 0 3)
           isTimedout toyHostAt 5 "svc" (fun _ => 4) "Paused" "Paused" _ "svc" "svc" "Paused"
           eq_refl eq_refl eq_refl eq_refl); [discriminate|lia].
Defined.

(** ** Start types and states *)

Lemma default_list_to_map (entries : list (string * N)) (k : string) :
  NoDup entries.*1 ->
  (forall v, (k, v) ∈ entries -> default 0%N (list_to_map (M:=gmap string N) entries !! k) = v)
  /\ (k ∉ entries.*1 -> default 0%N (list_to_map (M:=gmap string N) entries !! k) = 0%N).
Proof.
  intros Hnd. split.
  - intros v Hin. rewrite (elem_of_list_to_map_1 _ _ _ Hnd Hin). reflexivity.
  - intros Hnot. rewrite (not_elem_of_list_to_map_1 _ _ Hnot). reflexivity.
Qed.

(** X25.  [serviceStartModeToStartType] and [serviceState] give the number
    of the table for a string of the table, and 0 for any other string. *)
Theorem service_numbers_of_strings :
  forall (impl : impl_constants) (text : string),
    (forall v, (text, v) ∈ startModeEntries impl ->
               serviceStartModeToStartType impl text = v)
    /\ (text ∉ ["Boot"; "System"; "Auto"; "Manual"; "Disabled"] ->
        serviceStartModeToStartType impl text = 0%N)
    /\ (forall v, (text, v) ∈ stateEntries impl -> serviceState impl text = v)
    /\ (text ∉ ["Unknown"; "Stopped"; "Start Pending"; "Stop Pending"; "Running";
                "Continue Pending"; "Pause Pending"; "Paused"] ->
        serviceState impl text = 0%N).
Proof.
  intros impl text.
  assert (Hnd1 : NoDup (startModeEntries impl).*1).
  { refine (bool_decide_unpack (NoDup _) _). vm_compute. exact I. }
  assert (Hnd2 : NoDup (stateEntries impl).*1).
  { refine (bool_decide_unpack (NoDup _) _). vm_compute. exact I. }
  destruct (default_list_to_map (startModeEntries impl) text Hnd1) as [H1 H2].
  destruct (default_list_to_map (stateEntries impl) text Hnd2) as [H3 H4].
  repeat split; assumption.
Qed.

Lemma service_numbers_of_strings_witness :
  serviceStartModeToStartType winConstants "Manual" = 3%N
  /\ serviceStartModeToStartType winConstants "manual" = 0%N
  /\ serviceState winConstants "Running" = 4%N
  /\ serviceState winConstants "Degraded" = 0%N.
Proof.
  destruct (service_numbers_of_strings winConstants "Manual") as (H1 & _).
  destruct (service_numbers_of_strings winConstants "manual") as (_ & H2 & _).
  destruct (service_numbers_of_strings winConstants "Running") as (_ & _ & H3 & _).
  destruct (service_numbers_of_strings winConstants "Degraded") as (_ & _ & _ & H4).
  split; [|split; [|split]].
  - apply H1. do 3 right. left.
  - apply H2. intros Hin.
    repeat (apply elem_of_cons in Hin as [Hin|Hin]; [discriminate|]).
    apply elem_of_nil in Hin; exact Hin.
  - apply H3. do 4 right. left.
  - apply H4. intros Hin.
    repeat (apply elem_of_cons in Hin as [Hin|Hin]; [discriminate|]).
    apply elem_of_nil in Hin; exact Hin.
Defined.

End SystemProps.

(** * Properties of the correlation and of the queries *)
Module CimProps.
Import Cim Smb.

Section CorrelationFacts.
Context {I : Type}.
Implicit Types (indexer : InstanceIndexer I) (keys : gset string)
  (instanceMappings : gmap string string).

Lemma referenceKeys_spec (associatedInstances : list I) indexer :
  totalOn indexer associatedInstances ->
  exists keys, referenceKeys associatedInstances indexer = inl keys /\
    forall k, k ∈ keys <-> exists a, a ∈ associatedInstances /\ indexer a = inl k.
Proof.
  intros Htot. induction associatedInstances as [|inst rest IH]; simpl.
  - exists ∅. split; [reflexivity|]. intros k. split.
    + intros Hk. apply not_elem_of_empty in Hk. destruct Hk.
    + intros (a & Ha & _). apply elem_of_nil in Ha. destruct Ha.
  - destruct (Htot inst) as [key Hkey]; [left|].
    destruct IH as (keys & -> & Hkeys); [intros a Ha; apply Htot; right; exact Ha|].
    rewrite Hkey. exists ({[ key ]} ∪ keys). split; [reflexivity|]. intros k.
    rewrite elem_of_union, elem_of_singleton, Hkeys. split.
    + intros [-> | (a & Ha & Hk)].
      * exists inst. split; [left | exact Hkey].
      * exists a. split; [right; exact Ha | exact Hk].
    + intros (a & Ha & Hk). apply elem_of_cons in Ha as [-> | Ha].
      * left. congruence.
      * right. exists a. auto.
Qed.

Lemma mapped_in_keys instanceMappings keys (key : string) :
  existsb (fun v => bool_decide (v ∈ keys)) (lookupTargets instanceMappings key) = true
  <-> exists v, instanceMappings !! key = Some v /\ v ∈ keys.
Proof.
  unfold lookupTargets. destruct (instanceMappings !! key) as [v|]; simpl.
  - rewrite orb_false_r, bool_decide_eq_true. split.
    + intros Hv. exists v. auto.
    + intros (v' & [= <-] & Hv). exact Hv.
  - split; [discriminate|]. intros (v & Hv & _). discriminate.
Qed.

Lemma keepMapped_spec (instanceToFind : list I) indexer keys instanceMappings :
  totalOn indexer instanceToFind ->
  exists filtered,
    keepMapped instanceToFind indexer keys instanceMappings = inl filtered /\
    sublist filtered instanceToFind /\
    forall r, r ∈ filtered <->
      r ∈ instanceToFind /\
      exists k v, indexer r = inl k /\ instanceMappings !! k = Some v /\ v ∈ keys.
Proof.
  intros Htot. induction instanceToFind as [|inst rest IH]; simpl.
  - exists []. split; [reflexivity|]. split; [constructor|]. intros r. split.
    + intros Hr. apply elem_of_nil in Hr. destruct Hr.
    + intros [Hr _]. exact Hr.
  - destruct (Htot inst) as [key Hkey]; [left|].
    destruct IH as (filtered & -> & Hsub & Hmem);
      [intros a Ha; apply Htot; right; exact Ha|].
    rewrite Hkey.
    destruct (existsb _ (lookupTargets instanceMappings key)) eqn:Hex.
    + exists (inst :: filtered). split; [reflexivity|].
      split; [constructor; exact Hsub|]. intros r.
      rewrite !elem_of_cons, Hmem. split.
      * intros [-> | (Hr & Hk)]; [|split; [right; exact Hr | exact Hk]].
        split; [left; reflexivity|]. apply mapped_in_keys in Hex as (v & Hv & Hin).
        exists key, v. auto.
      * intros ([-> | Hr] & Hk); [left; reflexivity | right; auto].
    + exists filtered. split; [reflexivity|].
      split; [constructor; exact Hsub|]. intros r.
      rewrite elem_of_cons, Hmem. split.
      * intros (Hr & Hk). split; [right; exact Hr | exact Hk].
      * intros ([-> | Hr] & k & v & Hk & Hv & Hin); [|split; [exact Hr|eauto]].
        exfalso. assert (Ht : existsb (fun v => bool_decide (v ∈ keys))
                                (lookupTargets instanceMappings key) = true).
        { apply mapped_in_keys. exists v. split; [congruence | exact Hin]. }
        congruence.
Qed.

End CorrelationFacts.

(** C3.  When the source indexer yields a key for every source record and
    the reference indexer for every reference record, the correlation
    returns a list, and a record is on it exactly when it is a source record
    whose key the table maps to the key of some reference record.  Hence no
    returned record has a key without an entry in the table, the result
    keeps the order of the source records, and it is empty when there are no
    reference records. *)
Theorem FindInstancesByMapping_semijoin :
  forall (I : Type) (instanceToFind : list I) (instanceToFindIndex : InstanceIndexer I)
         (associatedInstances : list I) (associatedInstanceIndexer : InstanceIndexer I)
         (instanceMappings : gmap string string),
    totalOn instanceToFindIndex instanceToFind ->
    totalOn associatedInstanceIndexer associatedInstances ->
    exists filtered,
      FindInstancesByMapping instanceToFind instanceToFindIndex associatedInstances
        associatedInstanceIndexer instanceMappings = inl filtered
      /\ (forall r, r ∈ filtered <->
            r ∈ instanceToFind /\
            exists k v a, instanceToFindIndex r = inl k /\ instanceMappings !! k = Some v /\
                          a ∈ associatedInstances /\ associatedInstanceIndexer a = inl v)
      /\ (forall r k, r ∈ filtered -> instanceToFindIndex r = inl k ->
            is_Some (instanceMappings !! k))
      /\ sublist filtered instanceToFind
      /\ (associatedInstances = [] -> filtered = []).
Proof.
  intros I instanceToFind sidx associatedInstances ridx m Hs Hr.
  unfold FindInstancesByMapping.
  destruct (referenceKeys_spec associatedInstances ridx Hr) as (keys & -> & Hkeys).
  destruct (keepMapped_spec instanceToFind sidx keys m Hs) as (filtered & -> & Hsub & Hmem).
  exists filtered. split; [reflexivity|].
  assert (Hchar : forall r, r ∈ filtered <->
            r ∈ instanceToFind /\
            exists k v a, sidx r = inl k /\ m !! k = Some v /\
                          a ∈ associatedInstances /\ ridx a = inl v).
  { intros r. rewrite Hmem. split.
    - intros (Hin & k & v & Hk & Hv & Hvk). split; [exact Hin|].
      apply Hkeys in Hvk as (a & Ha & Hav). exists k, v, a. auto.
    - intros (Hin & k & v & a & Hk & Hv & Ha & Hav). split; [exact Hin|].
      exists k, v. split; [exact Hk|]. split; [exact Hv|]. apply Hkeys. exists a. auto. }
  split; [exact Hchar|]. split; [|split; [exact Hsub|]].
  - intros r k Hin Hk. apply Hchar in Hin as (_ & k' & v & _ & Hk' & Hv & _).
    exists v. congruence.
  - intros ->. apply elem_of_nil_inv. intros r Hin.
    apply Hchar in Hin as (_ & _ & _ & a & _ & _ & Ha & _).
    apply elem_of_nil in Ha. exact Ha.
Qed.

Lemma FindInstancesByMapping_semijoin_witness :
  exists filtered,
    FindInstancesByMapping [Target "iqn.t1"; Target "iqn.t2"; Target "iqn.t3"] targetIndexer
      [Portal "10.0.0.1"] portalIndexer sampleMappings = inl filtered
    /\ Target "iqn.t1" ∈ filtered
    /\ sublist filtered [Target "iqn.t1"; Target "iqn.t2"; Target "iqn.t3"].
Proof.
  destruct (FindInstancesByMapping_semijoin sampleRecord
              [Target "iqn.t1"; Target "iqn.t2"; Target "iqn.t3"] targetIndexer
              [Portal "10.0.0.1"] portalIndexer sampleMappings)
    as (filtered & Hf & Hchar & _ & Hsub & _).
  - intros inst Hin.
    repeat (apply elem_of_cons in Hin as [-> | Hin]; [eexists; reflexivity|]).
    apply elem_of_nil in Hin. destruct Hin.
  - intros inst Hin.
    repeat (apply elem_of_cons in Hin as [-> | Hin]; [eexists; reflexivity|]).
    apply elem_of_nil in Hin. destruct Hin.
  - exists filtered. split; [exact Hf|]. split; [|exact Hsub].
    apply Hchar. split; [left|].
    exists "iqn.t1", "10.0.0.1", (Portal "10.0.0.1").
    split; [reflexivity|]. split; [vm_compute; reflexivity|]. split; [left|reflexivity].
Defined.

Section MappingFacts.
Context {I : Type}.
Implicit Types (rows : list I) (keyIndexer valueIndexer : InstanceIndexer I).

Lemma insertPairs_lookup rows keyIndexer valueIndexer (acc table : gmap string string)
    (k : string) :
  insertPairs rows keyIndexer valueIndexer acc = inl table ->
  table !! k =
    match last (rowTargets rows keyIndexer valueIndexer k) with
    | Some v => Some v
    | None => acc !! k
    end.
Proof.
  revert acc. induction rows as [|row rows IH]; intros acc Hb; simpl in *.
  - injection Hb as <-. reflexivity.
  - destruct (keyIndexer row) as [key|]; [|discriminate].
    destruct (valueIndexer row) as [value|]; [|discriminate].
    rewrite (IH _ Hb). case_bool_decide as Hk.
    + subst key. rewrite last_cons.
      destruct (last (rowTargets rows keyIndexer valueIndexer k)); [reflexivity|].
      apply lookup_insert_eq.
    + rewrite lookup_insert_ne; [reflexivity|exact Hk].
Qed.

Lemma insertPairs_total rows keyIndexer valueIndexer (acc : gmap string string) :
  (forall row, row ∈ rows -> exists key value, keyIndexer row = inl key /\ valueIndexer row = inl value) ->
  exists table, insertPairs rows keyIndexer valueIndexer acc = inl table.
Proof.
  revert acc. induction rows as [|row rows IH]; intros acc Hall; simpl.
  - eexists; reflexivity.
  - destruct (Hall row) as (key & value & -> & ->); [left|].
    apply IH. intros r Hr. apply Hall. right. exact Hr.
Qed.

End MappingFacts.

(** C9, as stated.  When two association rows share a source key (a target
    behind two portals), the lookup does not yield one target key per row:
    the table holds one of the two. *)
Lemma mapping_drops_shared_source_key :
  ~ (forall table,
       ListISCSITargetToISCSITargetPortalMapping multipathWmi = inl table ->
       forall k, lookupTargets table k ≡ₚ
                 rowTargets multipathRows (mappingISCSITargetIndexer multipathWmi)
                   (mappingISCSITargetPortalIndexer multipathWmi) k).
Proof.
  intros Hclaim.
  assert (Hex : exists table,
             ListISCSITargetToISCSITargetPortalMapping multipathWmi = inl table /\
             lookupTargets table "iqn.t1" = ["10.0.0.2"]).
  { eexists. split; [reflexivity|]. vm_compute. reflexivity. }
  destruct Hex as (table & Ht & Hk).
  specialize (Hclaim table Ht "iqn.t1"). apply Permutation_length in Hclaim.
  rewrite Hk in Hclaim. vm_compute in Hclaim. discriminate.
Qed.

(** C9, amended.  The table is built from one listing of the association
    class: it fails with the listing's error, it exists when both indexers
    succeed on every row, and every row is inserted under its source key, a
    later row replacing an earlier one with the same source key.  So a
    lookup yields at most one target key: that of the last row whose source
    side gave the looked-up key, and none when no row did. *)
Theorem mapping_table_last_row_wins :
  forall (I P : Type) (wmi : WmiHost I P) (ns : namespace) (className : string)
         (selectorList : list string) (keyIndexer valueIndexer : InstanceIndexer I)
         (rows : list I) (queryErr : option error),
    QueryInstances wmi ns (NewWmiQueryWithSelectList className selectorList [])
      = (rows, queryErr) ->
    let built := ListWMIInstanceMappings wmi ns className selectorList keyIndexer valueIndexer in
    (forall e, queryErr = Some e -> built = inr e)
    /\ (queryErr = None ->
        (forall row, row ∈ rows ->
           exists key value, keyIndexer row = inl key /\ valueIndexer row = inl value) ->
        exists table, built = inl table)
    /\ (forall table, built = inl table ->
        forall k, table !! k = last (rowTargets rows keyIndexer valueIndexer k)
                  /\ length (lookupTargets table k) <= 1).
Proof.
  intros I P wmi ns className selectorList keyIndexer valueIndexer rows queryErr Hq.
  unfold ListWMIInstanceMappings. rewrite Hq. simpl. repeat split.
  - intros e ->. reflexivity.
  - intros -> Hall. apply insertPairs_total. exact Hall.
  - destruct queryErr; [discriminate|].
    rewrite (insertPairs_lookup _ _ _ _ _ k H), lookup_empty.
    destruct (last _); reflexivity.
  - unfold lookupTargets. destruct (table !! k); simpl; lia.
Qed.

Lemma mapping_table_last_row_wins_witness :
  exists table,
    ListISCSITargetToISCSITargetPortalMapping multipathWmi = inl table /\
    table !! "iqn.t1" = Some "10.0.0.2" /\ table !! "iqn.t2" = Some "10.0.0.1" /\
    table !! "iqn.t3" = None.
Proof.
  pose proof (mapping_table_last_row_wins (string * string) unit multipathWmi
                WMINamespaceStorage "MSFT_iSCSITargetToiSCSITargetPortal" []
                (mappingISCSITargetIndexer multipathWmi)
                (mappingISCSITargetPortalIndexer multipathWmi)
                multipathRows None eq_refl) as (_ & Hex & Hlook).
  destruct Hex as [table Ht]; [reflexivity| |].
  { intros row _. exists row.1, row.2. split; reflexivity. }
  exists table. split; [exact Ht|].
  split; [|split]; apply (Hlook table Ht).
Defined.

(** C10.  When the instance query returns the empty list and no error,
    [QueryISCSITargetPortal] and [RemoveSMBGlobalMapping] take element 0 of
    the empty list: the call panics and returns nothing, no error either. *)
Theorem first_instance_of_empty_result_panics :
  forall (I P : Type) (wmi : WmiHost I P),
    (forall (address : string) (port : N) (selectorList : list string),
       QueryInstances wmi WMINamespaceStorage
         (NewWmiQueryWithSelectList "MSFT_iSCSITargetPortal" selectorList
            [("TargetPortalAddress", address); ("TargetPortalPortNumber", pretty port)])
         = ([], None) ->
       QueryISCSITargetPortal wmi address port selectorList
         = Panicked "index out of range [0] with length 0")
    /\ (forall remotePath : string,
       QueryInstances wmi WMINamespaceSmb
         (NewWmiQuery "MSFT_SmbGlobalMapping" [("RemotePath", remotePathForQuery remotePath)])
         = ([], None) ->
       RemoveSMBGlobalMapping wmi remotePath
         = Panicked "index out of range [0] with length 0").
Proof.
  intros I P wmi. split.
  - intros address port selectorList Hq. unfold QueryISCSITargetPortal.
    rewrite Hq. reflexivity.
  - intros remotePath Hq. unfold RemoveSMBGlobalMapping. rewrite Hq. reflexivity.
Qed.

Lemma first_instance_of_empty_result_panics_witness :
  QueryISCSITargetPortal emptyWmi "10.0.0.1" 3260 [] = Panicked "index out of range [0] with length 0"
  /\ RemoveSMBGlobalMapping emptyWmi "share" = Panicked "index out of range [0] with length 0".
Proof.
  split.
  - apply (proj1 (first_instance_of_empty_result_panics unit unit emptyWmi)). reflexivity.
  - apply (proj2 (first_instance_of_empty_result_panics unit unit emptyWmi)). reflexivity.
Defined.

(** ** More of the iSCSI queries *)

Section PortalFacts.
Context {I P : Type} (wmi : WmiHost I P).

Lemma wrapPortals_spec (instances : list I) (targetPortals : list P) :
  match wrapPortals wmi instances targetPortals with
  | inl portals =>
    exists more, portals = targetPortals ++ more /\
      Forall2 (fun instance portal => NewMSFT_iSCSITargetPortalEx1 wmi instance = inl portal)
        instances more
  | inr e =>
    e = ErrNew "failed to query iSCSI target portal %v. error: %v" /\
    Exists (fun instance => exists e', NewMSFT_iSCSITargetPortalEx1 wmi instance = inr e')
      instances
  end.
Proof.
  revert targetPortals. induction instances as [|instance rest IH]; intros targetPortals; simpl.
  - exists []. rewrite app_nil_r. split; [reflexivity|constructor].
  - destruct (NewMSFT_iSCSITargetPortalEx1 wmi instance) as [portal|e'] eqn:Hnew.
    + specialize (IH (targetPortals ++ [portal])).
      destruct (wrapPortals wmi rest (targetPortals ++ [portal])) as [portals|e].
      * destruct IH as (more & -> & Hall). exists (portal :: more).
        rewrite <- app_assoc. split; [reflexivity|]. constructor; assumption.
      * destruct IH as [-> Hex]. split; [reflexivity|]. right. exact Hex.
    + split; [reflexivity|]. left. exists e'. exact Hnew.
Qed.

End PortalFacts.

(** X21.  When the query error is ignorable, [ListISCSITargetPortals] returns
    the wrapper of every instance, in order, or, if some instance cannot be
    wrapped, an error and no portal. *)
Theorem ListISCSITargetPortals_all_or_nothing :
  forall (I P : Type) (wmi : WmiHost I P) (IgnoreNotFound : option error -> option error)
         (selectorList : list string) (instances : list I) (err : option error),
    QueryInstances wmi WMINamespaceStorage
      (NewWmiQueryWithSelectList "MSFT_IscsiTargetPortal" selectorList []) = (instances, err) ->
    IgnoreNotFound err = None ->
    match ListISCSITargetPortals wmi IgnoreNotFound selectorList with
    | inl portals =>
      Forall2 (fun instance portal => NewMSFT_iSCSITargetPortalEx1 wmi instance = inl portal)
        instances portals
    | inr e =>
      e = ErrNew "failed to query iSCSI target portal %v. error: %v" /\
      Exists (fun instance => exists e', NewMSFT_iSCSITargetPortalEx1 wmi instance = inr e')
        instances
    end.
Proof.
  intros I P wmi IgnoreNotFound selectorList instances err Hq Hignore.
  unfold ListISCSITargetPortals. rewrite Hq, Hignore.
  pose proof (wrapPortals_spec wmi instances []) as Hw.
  destruct (wrapPortals wmi instances []) as [portals|e]; [|exact Hw].
  destruct Hw as (more & -> & Hall). exact Hall.
Qed.

Lemma ListISCSITargetPortals_all_or_nothing_witness :
  match ListISCSITargetPortals brokenPortalWmi (fun e => e) [] with
  | inl portals =>
    Forall2 (fun instance portal =>
               NewMSFT_iSCSITargetPortalEx1 brokenPortalWmi instance = inl portal)
      ["p1"; "p2"] portals
  | inr e =>
    e = ErrNew "failed to query iSCSI target portal %v. error: %v" /\
    Exists (fun instance =>
              exists e', NewMSFT_iSCSITargetPortalEx1 brokenPortalWmi instance = inr e')
      ["p1"; "p2"]
  end.
Proof.
  apply (ListISCSITargetPortals_all_or_nothing string string brokenPortalWmi (fun e => e) []
           ["p1"; "p2"] None); reflexivity.
Defined.

Lemma setIfGiven_lookup {A : Type} (key : string) (wrap : A -> param) (p : option A)
    (m : gmap string param) (k : string) :
  setIfGiven key wrap p m !! k =
    if bool_decide (k = key)
    then match p with Some v => Some (wrap v) | None => m !! k end
    else m !! k.
Proof.
  unfold setIfGiven. destruct p as [v|]; case_bool_decide as Hk; subst;
    rewrite ?lookup_insert_eq, ?lookup_insert_ne by congruence; reflexivity.
Qed.

Lemma insert_lookup_decide (key : string) (v : param) (m : gmap string param) (k : string) :
  <[key := v]> m !! k = if bool_decide (k = key) then Some v else m !! k.
Proof.
  case_bool_decide as Hk; subst;
    rewrite ?lookup_insert_eq, ?lookup_insert_ne by congruence; reflexivity.
Qed.

(** X22.  The parameter maps of [NewISCSITargetPortal] and
    [ConnectISCSITarget]: the mandatory keys are always present, an optional
    key is present exactly when its pointer is not nil, no other key is
    present; the port is a uint32 in the first and an int in the second. *)
Theorem method_parameters :
  forall (address : string) (port : N) (nodeAddress authType : string)
         (initiatorInstanceName initiatorPortalAddress : option string)
         (isHeaderDigest isDataDigest : option bool)
         (chapUsername chapSecret : option string),
    let np := newPortalParams address port initiatorInstanceName initiatorPortalAddress
                isHeaderDigest isDataDigest in
    let cp := connectParams address port nodeAddress authType chapUsername chapSecret in
    (np !! "TargetPortalAddress" = Some (ParamString address)
     /\ np !! "TargetPortalPortNumber" = Some (ParamUint32 port)
     /\ np !! "InitiatorInstanceName" = ParamString <$> initiatorInstanceName
     /\ np !! "InitiatorPortalAddress" = ParamString <$> initiatorPortalAddress
     /\ np !! "IsHeaderDigest" = ParamBool <$> isHeaderDigest
     /\ np !! "IsDataDigest" = ParamBool <$> isDataDigest
     /\ forall k, k ∉ ["TargetPortalAddress"; "TargetPortalPortNumber";
                       "InitiatorInstanceName"; "InitiatorPortalAddress";
                       "IsHeaderDigest"; "IsDataDigest"] -> np !! k = None)
    /\ (cp !! "NodeAddress" = Some (ParamString nodeAddress)
        /\ cp !! "TargetPortalAddress" = Some (ParamString address)
        /\ cp !! "TargetPortalPortNumber" = Some (ParamInt (Z.of_N port))
        /\ cp !! "AuthenticationType" = Some (ParamString authType)
        /\ cp !! "ChapUsername" = ParamString <$> chapUsername
        /\ cp !! "ChapSecret" = ParamString <$> chapSecret
        /\ forall k, k ∉ ["NodeAddress"; "TargetPortalAddress"; "TargetPortalPortNumber";
                          "AuthenticationType"; "ChapUsername"; "ChapSecret"] ->
                     cp !! k = None).
Proof.
  intros address port nodeAddress authType iin ipa hd dd cu cs np cp.
  unfold np, cp, newPortalParams, connectParams.
  repeat split;
    try (rewrite !setIfGiven_lookup, ?insert_lookup_decide; simpl;
         repeat match goal with |- context [match ?o with _ => _ end] =>
                  is_var o; destruct o end;
         reflexivity).
  - intros k Hk. rewrite !not_elem_of_cons in Hk.
    rewrite !setIfGiven_lookup, !insert_lookup_decide, lookup_empty.
    rewrite !bool_decide_eq_false_2 by tauto. reflexivity.
  - intros k Hk. rewrite !not_elem_of_cons in Hk.
    rewrite !setIfGiven_lookup, !insert_lookup_decide, lookup_empty.
    rewrite !bool_decide_eq_false_2 by tauto. reflexivity.
Qed.

Lemma method_parameters_witness :
  newPortalParams "10.0.0.1" 3260 None None (Some true) None !! "Bogus" = None
  /\ connectParams "10.0.0.1" 3260 "iqn.t1" "ONEWAYCHAP" (Some "user") (Some "secret")
     !! "Bogus" = None.
Proof.
  pose proof (method_parameters "10.0.0.1" 3260 "iqn.t1" "ONEWAYCHAP" None None (Some true)
                None (Some "user") (Some "secret")) as [Hnp Hcp].
  destruct Hnp as (_ & _ & _ & _ & _ & _ & Hnp).
  destruct Hcp as (_ & _ & _ & _ & _ & _ & Hcp).
  split; [apply Hnp | apply Hcp]; intros Hin;
    repeat (apply elem_of_cons in Hin as [Hin|Hin]; [discriminate|]);
    apply elem_of_nil in Hin; exact Hin.
Defined.

End CimProps.

(** * Properties of the server *)
Module ServerProps.
Import Server.

Section ServerFacts.
Context {L : Type}.
Variable PipePath : string -> string -> string.
Variable ListenPipe : string -> list (event L) -> result L.

Lemma closeEach_log (listeners : list (option L)) (log : list (event L)) :
  closeEach listeners log = log ++ map EvListenerClose (omap id listeners).
Proof.
  revert log. induction listeners as [|[l|] rest IH]; intros log; simpl.
  - rewrite app_nil_r. reflexivity.
  - rewrite IH, <- app_assoc. reflexivity.
  - apply IH.
Qed.

Lemma listenersClosed_closes (ls : list L) :
  listenersClosed (map EvListenerClose ls) = ls.
Proof. induction ls as [|l ls IH]; simpl; [reflexivity|]. f_equal. exact IH. Qed.

Lemma closes_no_listen (ls : list L) :
  listenErrors (map EvListenerClose ls) = [] /\
  listenersCreated (map EvListenerClose ls) = [] /\
  pipesTried (map EvListenerClose ls) = [] /\
  serveLoops (map EvListenerClose ls) = [].
Proof. induction ls as [|l ls IH]; simpl; [repeat split|]. exact IH. Qed.

Lemma serveEach_log (apis : list VersionedAPI) :
  forall (i : nat) (servers : list (option nat)) (listeners : list (option L))
         (log : list (event L)),
  exists new,
    (serveEach apis i servers listeners log).2 = log ++ new
    /\ listenErrors new = [] /\ listenersCreated new = []
    /\ pipesTried new = [] /\ listenersClosed new = []
    /\ serveLoops new = seq i (length apis).
Proof.
  induction apis as [|versionedAPI rest IH]; intros i servers listeners log; simpl.
  - exists []. rewrite app_nil_r. repeat split.
  - destruct (IH (S i) (<[i := Some i]> servers) listeners
                (log ++ [EvNewServer i; EvRegistrant i; EvGoServe i (mjoin (listeners !! i))]))
      as (new & -> & He & Hc & Hp & Hcl & Hsv).
    exists ([EvNewServer i; EvRegistrant i; EvGoServe i (mjoin (listeners !! i))] ++ new).
    rewrite <- app_assoc. repeat split; try assumption.
    simpl. f_equal. exact Hsv.
Qed.

Lemma listenEach_spec (apis : list VersionedAPI) :
  forall (pre : list (option L)) (errors : list error) (log : list (event L)),
  exists tail new,
    listenEach PipePath ListenPipe apis (length pre)
      (pre ++ replicate (length apis) None) errors log
      = (pre ++ tail, errors ++ listenErrors new, log ++ new)
    /\ omap id tail = listenersCreated new
    /\ pipesTried new = pipePaths PipePath apis
    /\ listenersClosed new = []
    /\ serveLoops new = [].
Proof.
  induction apis as [|versionedAPI rest IH]; intros pre errors log; simpl.
  - exists [], []. rewrite !app_nil_r. repeat split.
  - set (pipePath := PipePath (Group versionedAPI) (Version versionedAPI)).
    destruct (ListenPipe pipePath log) as [listener|err] eqn:Hl.
    + rewrite insert_app_r_alt by lia. rewrite Nat.sub_diag. simpl.
      destruct (IH (pre ++ [Some listener]) errors
                  (log ++ [EvListenPipe pipePath (inl listener)]))
        as (tail & new & Heq & Hcr & Hp & Hcl & Hsv).
      rewrite length_app in Heq. simpl in Heq. rewrite Nat.add_1_r in Heq.
      rewrite <- app_assoc in Heq. simpl in Heq. rewrite Heq.
      exists (Some listener :: tail), (EvListenPipe pipePath (inl listener) :: new).
      rewrite <- !app_assoc. simpl. repeat split.
      * f_equal. exact Hcr.
      * f_equal. exact Hp.
      * exact Hcl.
      * exact Hsv.
    + destruct (IH (pre ++ [None]) (errors ++ [err])
                  (log ++ [EvListenPipe pipePath (inr err)]))
        as (tail & new & Heq & Hcr & Hp & Hcl & Hsv).
      rewrite length_app in Heq. simpl in Heq. rewrite Nat.add_1_r in Heq.
      rewrite <- app_assoc in Heq. simpl in Heq. rewrite Heq.
      exists (None :: tail), (EvListenPipe pipePath (inr err) :: new).
      rewrite <- !app_assoc. simpl. repeat split.
      * exact Hcr.
      * f_equal. exact Hp.
      * exact Hcl.
      * exact Hsv.
Qed.

End ServerFacts.

(** C7.  [Start] on a server not yet started tries the pipe of every
    endpoint.  If at least one cannot be created, [Start] returns the errors
    of all the failed creations, in order; the listeners closed are exactly
    the listeners created; no serve loop is launched and no GRPC server is
    recorded. *)
Theorem Start_listen_failure_closes_all :
  forall (L : Type) (PipePath : string -> string -> string)
         (ListenPipe : string -> list (event L) -> result L)
         (s s' : Server) (listeningChan : bool) (log log' : list (event L))
         (res : start_result),
    started s = false ->
    Start PipePath ListenPipe s listeningChan log = (res, s', log') ->
    exists new,
      log' = log ++ new
      /\ pipesTried new = pipePaths PipePath (versionedAPIs s)
      /\ (listenErrors new <> [] ->
          res = StartReturned (listenErrors new)
          /\ listenersClosed new = listenersCreated new
          /\ serveLoops new = []
          /\ grpcServers s' = grpcServers s).
Proof.
  intros L PipePath ListenPipe s s' listeningChan log log' res Hst.
  unfold Start, startListening, createListeners. rewrite Hst. simpl.
  destruct (listenEach_spec PipePath ListenPipe (versionedAPIs s) [] [] log)
    as (tail & new & Heq & Hcr & Hp & Hcl & Hsv).
  simpl in Heq. rewrite Heq.
  destruct (decide (length (listenErrors new) <> 0)) as [Herr|Herr].
  - rewrite !bool_decide_eq_true_2 by exact Herr.
    intros Hres; injection Hres as <- <- <-. rewrite closeEach_log, <- app_assoc.
    exists (new ++ map EvListenerClose (omap id tail)). split; [reflexivity|].
    destruct (closes_no_listen (omap id tail)) as (He0 & Hc0 & Hp0 & Hs0).
    unfold pipesTried, listenErrors, listenersClosed, listenersCreated, serveLoops in *.
    rewrite !omap_app, He0, Hc0, Hp0, Hs0, Hcl, Hsv, !app_nil_r.
    split; [exact Hp|]. intros _. repeat split.
    simpl. rewrite <- Hcr. apply (listenersClosed_closes (omap id tail)).
  - rewrite !bool_decide_eq_false_2 by exact Herr.
    assert (Hnil : listenErrors new = []).
    { destruct (listenErrors new); [reflexivity|]. exfalso. apply Herr. simpl. lia. }
    unfold createAndStartGRPCServers. simpl.
    destruct (serveEach_log (versionedAPIs s) 0
                (replicate (length (versionedAPIs s)) None) tail (log ++ new))
      as (new2 & Hlog2 & He2 & Hc2 & Hp2 & Hcl2 & Hsv2).
    destruct (serveEach _ _ _ _ _) as [servers log2]. simpl in Hlog2. subst log2. simpl.
    intros Hres; injection Hres as <- <- <-.
    exists (new ++ new2 ++ (if listeningChan then [EvCloseListeningChan] else [])).
    split; [destruct listeningChan; rewrite <- ?app_assoc, ?app_nil_r; reflexivity|].
    unfold pipesTried, listenErrors in *. rewrite !omap_app, Hp2, He2, Hnil, Hp.
    split; [destruct listeningChan; rewrite app_nil_r; reflexivity|].
    destruct listeningChan; simpl; intros Hne; exfalso; apply Hne; reflexivity.
Qed.

Lemma Start_listen_failure_closes_all_witness :
  exists (s' : Server) (log' : list (event string)),
    Start samplePipePath sampleListenPipe sampleServer true []
      = (StartReturned [ErrNew "open pipe: access is denied"], s', log')
    /\ listenersCreated log' = ["smb-v1"]
    /\ listenersClosed log' = ["smb-v1"]
    /\ serveLoops log' = [].
Proof.
  pose (r := Start samplePipePath sampleListenPipe sampleServer true []).
  destruct (Start_listen_failure_closes_all string samplePipePath sampleListenPipe
              sampleServer r.1.2 true [] r.2 r.1.1 eq_refl eq_refl)
    as (new & Hlog & _ & Himp).
  simpl in Hlog. subst new.
  destruct Himp as (Hres & Hclosed & Hserve & _); [vm_compute; discriminate|].
  exists r.1.2, r.2. split; [reflexivity|]. split; [reflexivity|].
  split; [exact (eq_trans Hclosed eq_refl) | exact Hserve].
Defined.

(** C8.  [Start] on a started server returns the "already started" error
    and changes neither the server nor the transport; [Stop] on a server
    never started returns the "not started" error and changes nothing;
    after any [Start] the server is started, so that a second [Start] fails
    in that way; and [Stop] leaves the started flag as it is. *)
Theorem Server_lifecycle :
  forall (L : Type) (PipePath : string -> string -> string)
         (ListenPipe : string -> list (event L) -> result L)
         (s : Server) (log : list (event L)),
    (started s = true ->
     forall listeningChan,
       Start PipePath ListenPipe s listeningChan log
         = (StartReturned [ErrNew "server already started"], s, log))
    /\ (started s = false ->
        Stop s log = (Some (ErrNew "server not started yet"), s, log))
    /\ (forall listeningChan res s' log',
        Start PipePath ListenPipe s listeningChan log = (res, s', log') ->
        started s' = true
        /\ forall listeningChan2,
             Start PipePath ListenPipe s' listeningChan2 log'
               = (StartReturned [ErrNew "server already started"], s', log'))
    /\ (forall r s' log', Stop s log = (r, s', log') -> s' = s).
Proof.
  intros L PipePath ListenPipe s log.
  assert (Hagain : forall (s0 : Server) (log0 : list (event L)) (ch : bool),
             started s0 = true ->
             Start PipePath ListenPipe s0 ch log0
               = (StartReturned [ErrNew "server already started"], s0, log0)).
  { intros s0 log0 ch Hs0. unfold Start, startListening. rewrite Hs0. reflexivity. }
  split; [intros Hs ch; exact (Hagain s log ch Hs)|].
  split; [intros Hs; unfold Stop; rewrite Hs; reflexivity|].
  split.
  - intros ch res s' log' HStart.
    assert (Hs' : started s' = true).
    { revert HStart. unfold Start, startListening.
      destruct (started s) eqn:Hs.
      - simpl. intros Hres; injection Hres as <- <- <-. exact Hs.
      - destruct (createListeners _ _ _ _) as [[listeners ListenErr] log1].
        destruct (decide (length ListenErr <> 0)) as [Herr|Herr].
        + rewrite !bool_decide_eq_true_2 by exact Herr.
          intros Hres; injection Hres as <- <- <-. reflexivity.
        + rewrite !bool_decide_eq_false_2 by exact Herr.
          unfold createAndStartGRPCServers.
          destruct (serveEach _ _ _ _ _) as [servers log2]. simpl.
          intros Hres; injection Hres as <- <- <-. reflexivity. }
    split; [exact Hs'|]. intros ch2. exact (Hagain s' log' ch2 Hs').
  - intros r s' log'. unfold Stop. destruct (negb (started s));
      intros Hres; injection Hres as <- <- <-; reflexivity.
Qed.

Lemma Server_lifecycle_witness :
  Stop sampleServer ([] : list (event string))
    = (Some (ErrNew "server not started yet"), sampleServer, [])
  /\ (let r := Start samplePipePath sampleListenPipe sampleServer true [] in
      Start samplePipePath sampleListenPipe r.1.2 true r.2
        = (StartReturned [ErrNew "server already started"], r.1.2, r.2)).
Proof.
  split.
  - apply (proj1 (proj2 (Server_lifecycle string samplePipePath sampleListenPipe
                           sampleServer []))). reflexivity.
  - intros r.
    apply (proj1 (Server_lifecycle string samplePipePath sampleListenPipe r.1.2 r.2)).
    reflexivity.
Defined.

(** ** The start that succeeds, Stop, and the wait for the serve loops *)

Section StartFacts.
Context {L : Type}.
Variable PipePath : string -> string -> string.
Variable ListenPipe : string -> list (event L) -> result L.

Lemma listenEach_success (apis : list VersionedAPI) :
  forall (pre : list (option L)) (errors : list error) (log : list (event L))
         (listeners : list (option L)) (log' : list (event L)),
    listenEach PipePath ListenPipe apis (length pre)
      (pre ++ replicate (length apis) None) errors log = (listeners, errors, log') ->
    exists created,
      length created = length apis
      /\ listeners = pre ++ (Some <$> created)
      /\ log' = log ++ zip_with (fun p l => EvListenPipe p (inl l))
                        (pipePaths PipePath apis) created.
Proof.
  induction apis as [|versionedAPI rest IH]; intros pre errors log listeners log' Hrun;
    simpl in Hrun.
  - injection Hrun as <- <-. exists []. simpl. rewrite !app_nil_r. auto.
  - set (pipePath := PipePath (Group versionedAPI) (Version versionedAPI)) in *.
    destruct (ListenPipe pipePath log) as [listener|err] eqn:Hl.
    + rewrite insert_app_r_alt in Hrun by lia. rewrite Nat.sub_diag in Hrun. simpl in Hrun.
      specialize (IH (pre ++ [Some listener]) errors
                    (log ++ [EvListenPipe pipePath (inl listener)]) listeners log').
      rewrite length_app, Nat.add_1_r, <- app_assoc in IH. simpl in IH.
      destruct (IH Hrun) as (created & Hlen & -> & ->).
      exists (listener :: created). simpl. rewrite Hlen, <- !app_assoc. auto.
    + exfalso.
      destruct (listenEach_spec PipePath ListenPipe rest (pre ++ [None]) (errors ++ [err])
                  (log ++ [EvListenPipe pipePath (inr err)]))
        as (tail & new & Heq & _).
      rewrite length_app, Nat.add_1_r, <- app_assoc in Heq. simpl in Heq.
      rewrite Heq in Hrun. injection Hrun as _ Herrs _.
      apply (f_equal length) in Herrs. rewrite !length_app in Herrs. simpl in Herrs. lia.
Qed.

Lemma serveEach_full (apis : list VersionedAPI) :
  forall (pre : list (option nat)) (listeners : list (option L)) (log : list (event L)),
    serveEach apis (length pre) (pre ++ replicate (length apis) None) listeners log
    = (pre ++ (Some <$> seq (length pre) (length apis)),
       log ++ flat_map (fun i => serveEvents i listeners) (seq (length pre) (length apis))).
Proof.
  induction apis as [|versionedAPI rest IH]; intros pre listeners log; simpl.
  - rewrite !app_nil_r. reflexivity.
  - rewrite insert_app_r_alt by lia. rewrite Nat.sub_diag. simpl.
    specialize (IH (pre ++ [Some (length pre)]) listeners
                  (log ++ [EvNewServer (length pre); EvRegistrant (length pre);
                           EvGoServe (length pre) (mjoin (listeners !! length pre))])).
    rewrite length_app, Nat.add_1_r, <- app_assoc in IH. simpl in IH. rewrite IH.
    rewrite <- !app_assoc. reflexivity.
Qed.

Lemma stopEach_log (servers : list (option nat)) (log : list (event L)) :
  stopEach servers log = log ++ map EvGrpcStop (omap id servers).
Proof.
  revert log. induction servers as [|[g|] rest IH]; intros log; simpl.
  - rewrite app_nil_r. reflexivity.
  - rewrite IH, <- app_assoc. reflexivity.
  - apply IH.
Qed.

Lemma omap_id_Some {A : Type} (l : list A) : omap id (Some <$> l) = l.
Proof. induction l as [|x l IH]; simpl; [reflexivity|]. f_equal. exact IH. Qed.

(** All that a start without listen error does. *)
Lemma Start_waiting (s s' : Server) (listeningChan : bool) (log log' : list (event L))
    (doneChan : nat) :
  started s = false ->
  Start PipePath ListenPipe s listeningChan log = (StartWaiting doneChan, s', log') ->
  exists created,
    length created = length (versionedAPIs s)
    /\ doneChan = length (versionedAPIs s)
    /\ log' = log ++ startedLog (pipePaths PipePath (versionedAPIs s)) created listeningChan
    /\ s' = {| versionedAPIs := versionedAPIs s; started := true;
               grpcServers := Some <$> seq 0 (length (versionedAPIs s)) |}.
Proof.
  intros Hst. unfold Start, startListening, createListeners. rewrite Hst. simpl.
  destruct (listenEach _ _ _ _ _ _ _) as [[listeners errors] log1] eqn:Hlisten.
  destruct (decide (length errors <> 0)) as [Herr|Herr].
  { rewrite !bool_decide_eq_true_2 by exact Herr. discriminate. }
  rewrite !bool_decide_eq_false_2 by exact Herr.
  assert (errors = []) as -> by (destruct errors; [reflexivity|simpl in Herr; lia]).
  destruct (listenEach_success (versionedAPIs s) [] [] log listeners log1 Hlisten)
    as (created & Hlen & -> & ->).
  unfold createAndStartGRPCServers. simpl.
  pose proof (serveEach_full (versionedAPIs s) [] (Some <$> created)
                (log ++ zip_with (fun p l => EvListenPipe p (inl l))
                          (pipePaths PipePath (versionedAPIs s)) created)) as Hserve.
  simpl in Hserve. rewrite Hserve. simpl.
  intros Hres. injection Hres as <- <- <-.
  exists created. split; [exact Hlen|]. split; [reflexivity|]. split; [|reflexivity].
  unfold startedLog. rewrite Hlen.
  destruct listeningChan; rewrite <- ?app_assoc, ?app_nil_r; reflexivity.
Qed.

End StartFacts.

(** X14.  When [Start] on a server not yet started goes on to wait, it has
    created one listener per endpoint, in order, then launched for every
    endpoint one serve loop on that endpoint's listener, then closed the
    listening channel if one was given; the server is started and holds one
    GRPC server per endpoint. *)
Theorem Start_success_log :
  forall (L : Type) (PipePath : string -> string -> string)
         (ListenPipe : string -> list (event L) -> result L)
         (s s' : Server) (listeningChan : bool) (log log' : list (event L))
         (doneChan : nat),
    started s = false ->
    Start PipePath ListenPipe s listeningChan log = (StartWaiting doneChan, s', log') ->
    exists created,
      length created = length (versionedAPIs s)
      /\ doneChan = length (versionedAPIs s)
      /\ log' = log ++ startedLog (pipePaths PipePath (versionedAPIs s)) created listeningChan
      /\ s' = {| versionedAPIs := versionedAPIs s; started := true;
                 grpcServers := Some <$> seq 0 (length (versionedAPIs s)) |}.
Proof. intros L PipePath ListenPipe. apply Start_waiting. Qed.

Lemma Start_success_log_witness :
  exists created,
    length created = 2
    /\ 2 = 2
    /\ (Start samplePipePath openListenPipe sampleServer true []).2
       = [] ++ startedLog ["disk-v1"; "smb-v1"] created true
    /\ (Start samplePipePath openListenPipe sampleServer true []).1.2
       = {| versionedAPIs := versionedAPIs sampleServer; started := true;
            grpcServers := [Some 0; Some 1] |}.
Proof.
  apply (Start_success_log string samplePipePath openListenPipe sampleServer _ true [] _ 2
           eq_refl eq_refl).
Defined.

(** X15.  After any [Start] on a server not yet started, [Stop] returns nil:
    it stops the GRPC server of every endpoint, in order, when the start
    went on to wait, and only the servers recorded before when the
    listeners could not be created. *)
Theorem Stop_after_Start :
  forall (L : Type) (PipePath : string -> string -> string)
         (ListenPipe : string -> list (event L) -> result L)
         (s s' : Server) (listeningChan : bool) (log log' : list (event L))
         (res : start_result),
    started s = false ->
    Start PipePath ListenPipe s listeningChan log = (res, s', log') ->
    Stop s' log' =
      (None, s',
       log' ++ map EvGrpcStop
                 match res with
                 | StartWaiting _ => seq 0 (length (versionedAPIs s))
                 | StartReturned _ => omap id (grpcServers s)
                 end).
Proof.
  intros L PipePath ListenPipe s s' listeningChan log log' res Hst Hstart.
  destruct res as [errs|doneChan].
  - revert Hstart. unfold Start, startListening. rewrite Hst.
    destruct (createListeners _ _ _ _) as [[listeners ListenErr] log1].
    destruct (decide (length ListenErr <> 0)) as [Herr|Herr].
    + rewrite !bool_decide_eq_true_2 by exact Herr.
      intros Hres. injection Hres as _ <- <-. unfold Stop. simpl. rewrite stopEach_log.
      reflexivity.
    + rewrite !bool_decide_eq_false_2 by exact Herr. unfold createAndStartGRPCServers.
      destruct (serveEach _ _ _ _ _). simpl. discriminate.
  - destruct (Start_waiting PipePath ListenPipe s s' listeningChan log log' doneChan
                Hst Hstart) as (created & _ & _ & _ & ->).
    unfold Stop. simpl. rewrite stopEach_log. simpl. rewrite omap_id_Some. reflexivity.
Qed.

Lemma Stop_after_Start_witness :
  (let r := Start samplePipePath openListenPipe sampleServer true [] in
   Stop r.1.2 r.2 = (None, r.1.2, r.2 ++ [EvGrpcStop 0; EvGrpcStop 1]))
  /\ (let r := Start samplePipePath sampleListenPipe sampleServer true [] in
      Stop r.1.2 r.2 = (None, r.1.2, r.2 ++ [])).
Proof.
  split; intros r.
  - apply (Stop_after_Start string samplePipePath openListenPipe sampleServer r.1.2 true
             [] r.2 r.1.1 eq_refl eq_refl).
  - apply (Stop_after_Start string samplePipePath sampleListenPipe sampleServer r.1.2 true
             [] r.2 r.1.1 eq_refl eq_refl).
Defined.

Section WaitLoopFacts.
Context {L : Type}.

Lemma drainDone_spec (s : Server) (count : nat) (errs : list error)
    (arrivals : list versionedAPIDone) (log : list (event L)) :
  Forall (fun event => index event < length (versionedAPIs s)) arrivals ->
  drainDone s count errs arrivals log =
    if bool_decide (count <= length arrivals)
    then WaitReturned (errs ++ doneErrors (take count arrivals)) s log
    else WaitBlocked.
Proof.
  revert errs arrivals. induction count as [|count IH]; intros errs arrivals Hvalid;
    cbn [drainDone].
  - case_bool_decide; [|lia]. rewrite take_0. unfold doneErrors. simpl.
    rewrite app_nil_r. reflexivity.
  - destruct arrivals as [|event rest].
    + case_bool_decide as Hle; [simpl in Hle; lia|]. reflexivity.
    + apply Forall_cons in Hvalid as [Hidx Hvalid].
      unfold processServerDoneEvent.
      destruct (lookup_lt_is_Some_2 (versionedAPIs s) (index event) Hidx) as [api Hapi].
      rewrite Hapi.
      assert (Hstep : forall errs', 
                 errs' = errs ++ doneErrors [event] ->
                 drainDone s count errs' rest log =
                 if bool_decide (S count <= length (event :: rest))
                 then WaitReturned (errs ++ doneErrors (take (S count) (event :: rest))) s log
                 else WaitBlocked).
      { intros errs' ->. rewrite (IH _ rest Hvalid).
        repeat case_bool_decide; simpl in *; try lia; [|reflexivity].
        f_equal. rewrite <- app_assoc. f_equal. unfold doneErrors. simpl.
        destruct (err event); reflexivity. }
      destruct (err event) as [e|] eqn:He; apply Hstep; unfold doneErrors; simpl;
        rewrite He; [reflexivity|]. rewrite app_nil_r. reflexivity.
Qed.

End WaitLoopFacts.

(** X16.  On a started server with [n] endpoints, [waitForGRPCServersToStop]
    returns once [n] completion events have arrived: it stops every GRPC
    server once, after the first event, and returns the wrapped errors of
    the first [n] events, in order of arrival; with fewer events it waits.
    It does not panic. *)
Theorem waitForGRPCServersToStop_collects_errors :
  forall (L : Type) (s : Server) (arrivals : list versionedAPIDone) (log : list (event L)),
    started s = true ->
    Forall (fun event => index event < length (versionedAPIs s)) arrivals ->
    let n := length (versionedAPIs s) in
    waitForGRPCServersToStop s arrivals log =
      if bool_decide (1 <= length arrivals /\ n <= length arrivals)
      then WaitReturned (doneErrors (take n arrivals)) s
             (log ++ map EvGrpcStop (omap id (grpcServers s)))
      else WaitBlocked.
Proof.
  intros L s arrivals log Hst Hvalid n. unfold waitForGRPCServersToStop.
  destruct arrivals as [|event rest].
  { rewrite bool_decide_eq_false_2 by (simpl; lia). reflexivity. }
  pose proof Hvalid as Hall. apply Forall_cons in Hvalid as [Hidx Hvalid].
  assert (Hfirst : processServerDoneEvent s [] event = Some (doneErrors [event])).
  { unfold processServerDoneEvent, doneErrors.
    destruct (lookup_lt_is_Some_2 (versionedAPIs s) (index event) Hidx) as [api Hapi].
    rewrite Hapi. simpl. destruct (err event); reflexivity. }
  rewrite Hfirst. unfold Stop. rewrite Hst. simpl. rewrite stopEach_log.
  rewrite (drainDone_spec s _ _ rest _ Hvalid). fold n.
  assert (Hn : 0 < n) by (unfold n; lia).
  destruct (decide (n <= S (length rest))) as [Hle|Hgt].
  - rewrite bool_decide_eq_true_2 by lia.
    rewrite bool_decide_eq_true_2 by (simpl; lia).
    replace (take n (event :: rest)) with (event :: take (n - 1) rest)
      by (replace n with (S (n - 1)) at 2 by lia; reflexivity).
    unfold doneErrors. simpl. destruct (err event); reflexivity.
  - rewrite bool_decide_eq_false_2 by lia.
    rewrite bool_decide_eq_false_2 by (simpl; lia). reflexivity.
Qed.

Lemma waitForGRPCServersToStop_collects_errors_witness :
  waitForGRPCServersToStop servingServer
    [ {| index := 1; err := Some (ErrNew "accept failed") |};
      {| index := 0; err := None |} ] ([] : list (event string))
  = WaitReturned [ErrWrap "GRPC server for API group %s version %s failed"
                    (ErrNew "accept failed")]
      servingServer [EvGrpcStop 0; EvGrpcStop 1].
Proof.
  apply (waitForGRPCServersToStop_collects_errors string servingServer
           [ {| index := 1; err := Some (ErrNew "accept failed") |};
             {| index := 0; err := None |} ] [] eq_refl).
  repeat constructor.
Defined.

End ServerProps.

(** * Properties of the SMB host API *)
Module SmbProps.
Import Cim Smb.

Lemma remotePathForQuery_app (s1 s2 : string) :
  remotePathForQuery (s1 +:+ s2) = remotePathForQuery s1 +:+ remotePathForQuery s2.
Proof.
  induction s1 as [|c s1 IH]; simpl; [reflexivity|].
  case_bool_decide; simpl; rewrite IH; reflexivity.
Qed.

Lemma collapse_remotePathForQuery (s : string) :
  collapseBackslashes false (remotePathForQuery s) = s.
Proof.
  induction s as [|c s IH]; [reflexivity|].
  cbn [remotePathForQuery]. case_bool_decide as Hc; cbn [collapseBackslashes].
  - rewrite bool_decide_eq_true_2 by reflexivity. rewrite IH, Hc. reflexivity.
  - rewrite bool_decide_eq_false_2 by exact Hc. rewrite IH. reflexivity.
Qed.

(** X17.  Collapsing the doubled backslashes of [remotePathForQuery s] gives
    [s] back; so different paths give different query values. *)
Theorem remotePathForQuery_round_trip :
  (forall s, collapseBackslashes false (remotePathForQuery s) = s)
  /\ (forall s1 s2, remotePathForQuery s1 = remotePathForQuery s2 -> s1 = s2).
Proof.
  split; [exact collapse_remotePathForQuery|].
  intros s1 s2 Heq. rewrite <- (collapse_remotePathForQuery s1), Heq.
  apply collapse_remotePathForQuery.
Qed.

Lemma remotePathForQuery_round_trip_witness :
  collapseBackslashes false (remotePathForQuery uncPath) = uncPath
  /\ uncPath = uncPath.
Proof.
  split.
  - apply (proj1 remotePathForQuery_round_trip).
  - apply (proj2 remotePathForQuery_round_trip). reflexivity.
Defined.

(** X18.  [remotePathForQuery] lengthens a path by its number of
    backslashes, leaves a path without backslash as it is, and distributes
    over concatenation. *)
Theorem remotePathForQuery_length :
  forall s1 s2 : string,
    String.length (remotePathForQuery s1) = String.length s1 + countBackslashes s1
    /\ (countBackslashes s1 = 0 -> remotePathForQuery s1 = s1)
    /\ remotePathForQuery (s1 +:+ s2) = remotePathForQuery s1 +:+ remotePathForQuery s2.
Proof.
  intros s1 s2. split; [|split; [|apply remotePathForQuery_app]].
  - induction s1 as [|c s1 IH]; simpl; [reflexivity|].
    case_bool_decide; simpl; rewrite IH; lia.
  - induction s1 as [|c s1 IH]; simpl; [reflexivity|].
    case_bool_decide; [discriminate|]. intros Hz. rewrite (IH Hz). reflexivity.
Qed.

Lemma remotePathForQuery_length_witness :
  String.length (remotePathForQuery uncPath) = 14 /\ remotePathForQuery "share" = "share".
Proof.
  split.
  - exact (eq_trans (proj1 (remotePathForQuery_length uncPath "")) eq_refl).
  - apply (proj1 (proj2 (remotePathForQuery_length "share" ""))). reflexivity.
Defined.

(** X19.  When [IsSMBMapped] answers true it returns no error, and
    [RemoveSMBGlobalMapping] on the same path and host returns: it does not
    panic. *)
Theorem IsSMBMapped_guards_RemoveSMBGlobalMapping :
  forall (I P : Type) (wmi : WmiHost I P) (IgnoreNotFound : option error -> option error)
         (remotePath : string),
    (IsSMBMapped wmi IgnoreNotFound remotePath).1 = true ->
    (IsSMBMapped wmi IgnoreNotFound remotePath).2 = None
    /\ exists r, RemoveSMBGlobalMapping wmi remotePath = Returned r.
Proof.
  intros I P wmi IgnoreNotFound remotePath. unfold IsSMBMapped, RemoveSMBGlobalMapping.
  destruct (QueryInstances wmi _ _) as [instances err].
  destruct (IgnoreNotFound err); [discriminate|]. simpl. intros Hlen.
  apply bool_decide_eq_true in Hlen. split; [reflexivity|].
  destruct err; [eexists; reflexivity|].
  destruct instances as [|instance rest]; [simpl in Hlen; lia|]. simpl.
  destruct (InvokeMethod wmi instance "Remove"); eexists; reflexivity.
Qed.

Lemma IsSMBMapped_guards_RemoveSMBGlobalMapping_witness :
  (IsSMBMapped mappedWmi ignoreNotFound uncPath).2 = None
  /\ exists r, RemoveSMBGlobalMapping mappedWmi uncPath = Returned r.
Proof.
  apply (IsSMBMapped_guards_RemoveSMBGlobalMapping string unit mappedWmi ignoreNotFound uncPath).
  reflexivity.
Defined.

Lemma HasSuffix_refl (s : string) : HasSuffix s s = true.
Proof.
  destruct s; cbn [HasSuffix]; rewrite bool_decide_eq_true_2 by reflexivity; reflexivity.
Qed.

Lemma HasSuffix_app (s suffix : string) : HasSuffix (s +:+ suffix) suffix = true.
Proof.
  induction s as [|c s IH]; [apply HasSuffix_refl|].
  change (String c s +:+ suffix) with (String c (s +:+ suffix)).
  cbn [HasSuffix]. case_bool_decide; [reflexivity|exact IH].
Qed.

(** X20.  The remote path that [NewSMBLink] hands to the script always ends
    in a backslash: the given path if it does, the given path with one
    appended otherwise; the call fails exactly when the script does. *)
Theorem NewSMBLink_target_ends_with_backslash :
  forall (remotePath localPath : string),
    exists target,
      HasSuffix target (String backslash EmptyString) = true
      /\ (target = remotePath \/ target = remotePath +:+ String backslash EmptyString)
      /\ (HasSuffix remotePath (String backslash EmptyString) = true -> target = remotePath)
      /\ forall RunPowershellCmd,
           NewSMBLink RunPowershellCmd remotePath localPath =
             match (RunPowershellCmd
                      "New-Item -ItemType SymbolicLink $Env:smblocalPath -Target $Env:smbremotepath"
                      ["smbremotepath=" +:+ target; "smblocalpath=" +:+ localPath]).2 with
             | Some _ => Some (ErrNew "error linking %s to %s. output: %s, err: %v")
             | None => None
             end.
Proof.
  intros remotePath localPath. unfold NewSMBLink.
  destruct (HasSuffix remotePath (String backslash EmptyString)) eqn:Hs; simpl.
  - exists remotePath. repeat split; auto.
    intros run. destruct (run _ _) as [output err]. reflexivity.
  - exists (remotePath +:+ String backslash EmptyString). repeat split; auto.
    + apply HasSuffix_app.
    + discriminate.
    + intros run. destruct (run _ _) as [output err]. reflexivity.
Qed.

Lemma NewSMBLink_target_ends_with_backslash_witness :
  exists target,
    HasSuffix target (String backslash EmptyString) = true
    /\ (target = uncPath \/ target = uncPath +:+ String backslash EmptyString)
    /\ (HasSuffix uncPath (String backslash EmptyString) = true -> target = uncPath)
    /\ forall RunPowershellCmd,
         NewSMBLink RunPowershellCmd uncPath "link" =
           match (RunPowershellCmd
                    "New-Item -ItemType SymbolicLink $Env:smblocalPath -Target $Env:smbremotepath"
                    ["smbremotepath=" +:+ target; "smblocalpath=" +:+ "link"]).2 with
           | Some _ => Some (ErrNew "error linking %s to %s. output: %s, err: %v")
           | None => None
           end.
Proof. exact (NewSMBLink_target_ends_with_backslash uncPath "link"). Defined.

End SmbProps.

(** * Properties of the system host API *)
Module SystemHostAPIProps.
Import Cim SystemHostAPI.

(** X23.  When the query returns the empty list and no error,
    [GetBIOSSerialNumber] and [GetService] of the system host API take
    element 0 of the empty list and panic. *)
Theorem host_queries_panic_on_empty_result :
  forall (I B S : Type) (lib : CimV2 I B S),
    (QueryInstances lib "" (NewWmiQueryWithSelectList "CIM_BIOSElement" ["SerialNumber"] [])
       = ([], None) ->
     GetBIOSSerialNumber lib = Panicked "index out of range [0] with length 0")
    /\ (forall name,
          QueryInstances lib ""
            (NewWmiQueryWithSelectList "Win32_Service" ["DisplayName"; "State"; "StartMode"]
               [("Name", name)]) = ([], None) ->
          GetService lib name = Panicked "index out of range [0] with length 0").
Proof.
  intros I B S lib. split.
  - intros Hq. unfold GetBIOSSerialNumber. rewrite Hq. reflexivity.
  - intros name Hq. unfold GetService. rewrite Hq. reflexivity.
Qed.

Lemma host_queries_panic_on_empty_result_witness :
  GetBIOSSerialNumber emptyLib = Panicked "index out of range [0] with length 0"
  /\ GetService emptyLib "csiproxy" = Panicked "index out of range [0] with length 0".
Proof.
  split.
  - apply (proj1 (host_queries_panic_on_empty_result unit unit unit emptyLib)). reflexivity.
  - apply (proj2 (host_queries_panic_on_empty_result unit unit unit emptyLib)). reflexivity.
Defined.

(** X24.  Every error that [GetBIOSSerialNumber] and [GetService] return has
    the cause of an error of the query or of the library call that failed:
    the wrapping keeps it. *)
Theorem host_errors_keep_their_cause :
  forall (I B S : Type) (lib : CimV2 I B S) (name : string) (e : error),
    (GetBIOSSerialNumber lib = Returned (inr e) ->
     exists e0, cause e = cause e0 /\
       ((QueryInstances lib ""
           (NewWmiQueryWithSelectList "CIM_BIOSElement" ["SerialNumber"] [])).2 = Some e0
        \/ (exists inst, NewCIM_BIOSElementEx1 lib inst = inr e0)
        \/ (exists bios, GetPropertySerialNumber lib bios = inr e0)))
    /\ (GetService lib name = Returned (inr e) ->
        exists e0, cause e = cause e0 /\
          ((QueryInstances lib ""
              (NewWmiQueryWithSelectList "Win32_Service"
                 ["DisplayName"; "State"; "StartMode"] [("Name", name)])).2 = Some e0
           \/ (exists inst, NewWin32_ServiceEx1 lib inst = inr e0)
           \/ (exists svc, GetPropertyDisplayName lib svc = inr e0
                           \/ GetPropertyState lib svc = inr e0
                           \/ GetPropertyStartMode lib svc = inr e0))).
Proof.
  intros I B S lib name e. split.
  - unfold GetBIOSSerialNumber.
    destruct (QueryInstances lib "" _) as [instances [e0|]] eqn:Hq; simpl.
    { intros [= <-]. exists e0. auto. }
    destruct (index0 instances) as [inst|]; [|discriminate].
    destruct (NewCIM_BIOSElementEx1 lib inst) as [bios|e0] eqn:Hnew.
    2:{ intros [= <-]. exists e0. split; [reflexivity|]. right. left. eauto. }
    destruct (GetPropertySerialNumber lib bios) as [sn|e0] eqn:Hsn; [discriminate|].
    intros [= <-]. exists e0. split; [reflexivity|]. right. right. eauto.
  - unfold GetService.
    destruct (QueryInstances lib "" _) as [instances [e0|]] eqn:Hq; simpl.
    { intros [= <-]. exists e0. auto. }
    destruct (index0 instances) as [inst|]; [|discriminate].
    destruct (NewWin32_ServiceEx1 lib inst) as [svc|e0] eqn:Hnew.
    2:{ intros [= <-]. exists e0. split; [reflexivity|]. right. left. eauto. }
    destruct (GetPropertyDisplayName lib svc) as [dn|e0] eqn:Hdn.
    2:{ intros [= <-]. exists e0. split; [reflexivity|]. right. right. eauto. }
    destruct (GetPropertyState lib svc) as [st|e0] eqn:Hst.
    2:{ intros [= <-]. exists e0. split; [reflexivity|]. right. right. eauto. }
    destruct (GetPropertyStartMode lib svc) as [sm|e0] eqn:Hsm; [discriminate|].
    intros [= <-]. exists e0. split; [reflexivity|]. right. right. eauto.
Qed.

Lemma host_errors_keep_their_cause_witness :
  exists e0, cause (ErrWrap "failed to get state property of service %s: %w"
                      (ErrNew "access denied")) = cause e0 /\
    ((QueryInstances unreadableLib ""
        (NewWmiQueryWithSelectList "Win32_Service"
           ["DisplayName"; "State"; "StartMode"] [("Name", "csiproxy")])).2 = Some e0
     \/ (exists inst, NewWin32_ServiceEx1 unreadableLib inst = inr e0)
     \/ (exists svc, GetPropertyDisplayName unreadableLib svc = inr e0
                     \/ GetPropertyState unreadableLib svc = inr e0
                     \/ GetPropertyStartMode unreadableLib svc = inr e0)).
Proof.
  apply (proj2 (host_errors_keep_their_cause unit unit unit unreadableLib "csiproxy" _)).
  reflexivity.
Defined.

End SystemHostAPIProps.
